(** * Export of a note tree to a tar archive (src/services/export/tar.js)

    A shallow embedding of [exportToTar] and of the functions nested in it
    ([getUniqueFilename], [getDataFileName], [getNote], [prepareContent],
    [saveNote]), followed by the properties of the export that have been
    checked against it.

    Conventions of the embedding.
    - A JavaScript string is a sequence of UTF-16 code units.  The strings
      of the embedding are those whose code units are below 256, one [ascii]
      for each code unit: [String.length] is [.length], [toLowerCase] lowers
      A-Z and the letters from U+00C0 to U+00DE, and [byteLength] is the
      number of bytes of the string in UTF-8 (two for a code unit from 128
      on).
    - [key in object] finds the own keys of the object and the names it
      inherits.  [noteIdToMeta] is an object literal and inherits the
      members of Object.prototype; the name table of the first call is the
      array literal of tar.js:192, handed on to every other call, and
      inherits the members of Array.prototype and of Object.prototype.  The
      names are those of ECMA-262, in its edition of 2023
      ([Object_prototype], [Array_prototype]); a lower-cased candidate can
      only meet those without an upper-case letter.
    - An object used as a dictionary is a [gmap] over its own string keys.
      The name table maps a lower-cased name to its counter; its own
      property [length] is the key "length", 0 when it is not in the map,
      so that the empty map is the empty array.  An own property that is not
      a number arises in the table only under the name of an inherited
      method, where it changes neither [in] nor the number read; it is not
      kept in the map.
    - Note ids are made up by the application and are no member names of
      Object.prototype: a look-up or an [in] by a note id is one on the own
      keys.  The target of a link and the value of a relation are free text.
    - The closure variables that the nested functions mutate are threaded
      explicitly: every function takes the current value and returns the new
      one.  A name table is passed by reference in the source, so the table a
      callee leaves behind is the table the caller goes on with.
    - [await] is sequencing; a call that may throw or loop returns a [Res].
    - The modules required from npm ([sanitize-filename], [mime-types],
      [html], [turndown]) and [JSON.stringify] are the fields of the class
      [Libraries]; nothing is assumed about them.  [mimeTypes.extension]
      returns [false] for an unknown type, here [None]. *)

From Stdlib Require Import Ascii String.
From stdpp Require Import base option list gmap strings pretty.

#[local] Set Warnings "-clear-no-such-hyp".

(** ** Results of effectful code *)

Inductive Res (A : Type) : Type :=
  | Ok (a : A)
  | Throw (e : string)
  | Diverge.
Arguments Ok {A} a.
Arguments Throw {A} e.
Arguments Diverge {A}.

Global Instance Res_ret : MRet Res := @Ok.
Global Instance Res_bind : MBind Res := λ A B f m,
  match m with
  | Ok a => f a
  | Throw e => Throw e
  | Diverge => Diverge
  end.

Definition terminated {A} (r : Res A) : bool :=
  match r with Diverge => false | _ => true end.

Definition succeeded {A} (r : Res A) : bool :=
  match r with Ok _ => true | _ => false end.

(** ** Strings *)

Definition lowerCodeUnit (c : ascii) : ascii :=
  let n := nat_of_ascii c in
  if (65 <=? n)%nat && (n <=? 90)%nat then ascii_of_nat (n + 32)
  else if (192 <=? n)%nat && (n <=? 222)%nat && negb (n =? 215)%nat
       then ascii_of_nat (n + 32)
  else c.

Fixpoint toLowerCase (s : string) : string :=
  match s with
  | EmptyString => EmptyString
  | String c s' => String (lowerCodeUnit c) (toLowerCase s')
  end.

(** [endsWith s e]: [e] is one of the suffixes of [s]. *)
Fixpoint endsWith (s e : string) : bool :=
  if String.eqb s e then true
  else match s with
       | EmptyString => false
       | String _ s' => endsWith s' e
       end.


(** Decimal digits. *)
Definition isDigit (c : ascii) : bool :=
  let n := nat_of_ascii c in (48 <=? n)%nat && (n <=? 57)%nat.

Fixpoint isDigits (s : string) : bool :=
  match s with
  | EmptyString => true
  | String c s' => isDigit c && isDigits s'
  end.

Fixpoint endsWithDigit (s : string) : bool :=
  match s with
  | EmptyString => false
  | String c EmptyString => isDigit c
  | String _ s' => endsWithDigit s'
  end.

(** A value that may be [undefined] or [null]: truthiness and string
    conversion under [+]. *)
Definition truthy (o : option string) : bool :=
  match o with
  | Some (String _ _) => true
  | _ => false
  end.

Definition toString (o : option string) : string := default "undefined" o.

(** [a || b] on possibly undefined strings. *)
Definition orElse (a b : option string) : option string :=
  if truthy a then a else b.

Definition dquote : string := String (ascii_of_nat 34) EmptyString.

(** Numbers, as far as a counter of the name table goes: a natural number or
    [NaN], and their conversion to a string under [+]. *)
Inductive Number :=
  | Num (n : N)
  | NaN.

Definition numberToString (x : Number) : string :=
  match x with
  | Num n => pretty n
  | NaN => "NaN"
  end.

(** ** Inherited names *)

(** The members of Object.prototype that are functions, and [__proto__],
    which is a getter and a setter. *)
Definition Object_prototype_methods : list string :=
  ["constructor"; "__defineGetter__"; "__defineSetter__"; "hasOwnProperty";
   "__lookupGetter__"; "__lookupSetter__"; "isPrototypeOf";
   "propertyIsEnumerable"; "toString"; "valueOf"; "toLocaleString"].

Definition Object_prototype : list string :=
  "__proto__" :: Object_prototype_methods.

(** The members of Array.prototype with a string for a name, all of them
    functions, [length] apart, which every array has of its own. *)
Definition Array_prototype : list string :=
  ["at"; "concat"; "constructor"; "copyWithin"; "entries"; "every"; "fill";
   "filter"; "find"; "findIndex"; "findLast"; "findLastIndex"; "flat";
   "flatMap"; "forEach"; "includes"; "indexOf"; "join"; "keys"; "lastIndexOf";
   "map"; "pop"; "push"; "reduce"; "reduceRight"; "reverse"; "shift"; "slice";
   "some"; "sort"; "splice"; "toLocaleString"; "toReversed"; "toSorted";
   "toSpliced"; "toString"; "unshift"; "values"; "with"].

(** What [in] finds in every array: its own [length] and the members it
    inherits. *)
Definition inheritedByArray : list string :=
  "length" :: Array_prototype ++ Object_prototype.

Definition inherits (names : list string) (key : string) : bool :=
  existsb (String.eqb key) names.

(** [key in object] for an object literal used as a dictionary. *)
Definition inObject {A} (object : gmap string A) (key : string) : bool :=
  bool_decide (is_Some (object !! key)) || inherits Object_prototype key.

(** ** Entities of the persistence layer *)

Record Attribute := {
  attr_type : string;
  attr_name : string;
  attr_value : string;
  attr_isInheritable : bool;
  attr_position : Z
}.

Record Link := {
  link_type : string;
  targetNoteId : string
}.

Record Branch := {
  branch_noteId : string;
  branch_prefix : option string;
  branch_isExpanded : bool
}.

Record Note := {
  note_title : string;
  note_type : string;
  note_mime : string;
  note_content : string;
  hasLabel : string → bool;
  getOwnedAttributes : list Attribute;
  getLinks : list Link;
  getChildBranches : list Branch
}.

(** The repository: [branch.getNote()] and [repository.getNote(noteId)] both
    look the note up by its id; the note's [noteId] is its key. *)
Abbreviation Repository := (gmap string Note).

(** ** The manifest *)

(** The fields a metadata object has when it is created (tar.js:87-115). *)
Record Meta := {
  meta_noteId : string;
  meta_title : string;
  meta_prefix : option string;
  meta_isExpanded : bool;
  meta_type : string;
  meta_mime : string;
  meta_attributes : list Attribute;
  meta_links : list Link;
  meta_format : option string
}.

(** A manifest node: a clone stub (tar.js:79-84) or a metadata object with
    the fields assigned after its creation, [dataFileName], [dirFileName]
    and [children]. *)
#[warnings="-register-all"] Inductive NoteMeta :=
  | CloneMeta (noteId : string) (prefix : option string) (dataFileName : string)
  | FullMeta (meta : Meta) (dataFileName dirFileName : option string)
      (children : option (list NoteMeta)).

Record MetaFile := {
  version : nat;
  files : list (option NoteMeta)
}.

Abbreviation NameTable := (gmap string N).
Abbreviation Registry := (gmap string Meta).

(** ** The archive and the response *)

Inductive PackCall :=
  | FileEntry (name : string) (size : nat) (content : string)
  | DirectoryEntry (name : string)
  | Finalize.

Inductive ResCall :=
  | SendStatus (code : nat)
  | SetHeader (name value : string)
  | Pipe (archive : list PackCall).

(** ** Required modules *)

Class Libraries := {
  sanitize : string → string;
  mimeTypes_extension : string → option string;
  html_prettyPrint : string → string;
  turndown : string → string;
  JSON_stringify : MetaFile → string
}.

(** ** The name table (tar.js:192) *)

(** A key that is an array index: the decimal numeral of a number below
    2^32 - 1. *)
Definition digitOf (c : ascii) : option N :=
  if isDigit c then Some (N.of_nat (nat_of_ascii c - 48)) else None.

Fixpoint parseDecimal (acc : N) (s : string) : option N :=
  match s with
  | EmptyString => Some acc
  | String c s' => d ← digitOf c; parseDecimal (10 * acc + d)%N s'
  end.

Definition arrayIndex (key : string) : option N :=
  match key with
  | EmptyString => None
  | String _ _ =>
      n ← parseDecimal 0 key;
      if String.eqb (pretty n) key && (n <? 4294967295)%N then Some n else None
  end.

Definition arrayLength (existingFileNames : NameTable) : N :=
  default 0%N (existingFileNames !! "length").

(** [key in existingFileNames] *)
Definition inArray (existingFileNames : NameTable) (key : string) : bool :=
  bool_decide (is_Some (existingFileNames !! key))
  || inherits inheritedByArray key.

(** [existingFileNames[key] = 1] for a key that is not in the table.  A key
    that is an array index makes the array as long as the index asks for. *)
Definition setNew (existingFileNames : NameTable) (key : string) : NameTable :=
  let existingFileNames := <[key := 1%N]> existingFileNames in
  match arrayIndex key with
  | Some index =>
      if (arrayLength existingFileNames <=? index)%N
      then <["length" := (index + 1)%N]> existingFileNames
      else existingFileNames
  | None => existingFileNames
  end.

(** The number the table has under a key, its length under "length". *)
Definition counterOf (existingFileNames : NameTable) (key : string) : option N :=
  if String.eqb key "length" then Some (arrayLength existingFileNames)
  else existingFileNames !! key.

(** [existingFileNames[key]++] for a key that is in the table: the number
    read and the table after the write.  The getter of [__proto__] gives
    Array.prototype, an empty array and so 0 as a number, and its setter
    ignores a number.  A length of 2^32 is refused.  A key that is not the
    table's own is an inherited method: it is not a number, and neither is
    what is written. *)
Definition postIncrement (existingFileNames : NameTable) (key : string)
    : Res (Number * NameTable) :=
  if String.eqb key "__proto__" then Ok (Num 0, existingFileNames)
  else if String.eqb key "length" then
    let length := arrayLength existingFileNames in
    if (length + 1 <? 4294967296)%N
    then Ok (Num length, <["length" := (length + 1)%N]> existingFileNames)
    else Throw "RangeError: Invalid array length"
  else
    match existingFileNames !! key with
    | Some counter => Ok (Num counter, <[key := (counter + 1)%N]> existingFileNames)
    | None => Ok (NaN, existingFileNames)
    end.

(** A name made from a candidate: the candidate, or the candidate followed
    by an underscore and a number. *)
Definition suffixed (candidate name : string) : Prop :=
  name = candidate
  ∨ ∃ index : Number, name = candidate +:+ "_" +:+ numberToString index.

(** ** getUniqueFilename (tar.js:21-42) *)

(** The do-while loop of tar.js:28-33.  Each round reads the counter of
    [lcFileName], increments it in the table and tries the name with the
    value read.  The loop is entered only with [lcFileName] in the table.
    [fuel] bounds the rounds: a loop that is out of fuel has not stopped. *)
Fixpoint nextFreeIndex (fuel : nat) (lcFileName : string)
    (existingFileNames : NameTable) : Res (Number * NameTable) :=
  match fuel with
  | O => Diverge
  | S fuel =>
      '(index, existingFileNames) ← postIncrement existingFileNames lcFileName;
      let newName := lcFileName +:+ "_" +:+ numberToString index in
      if inArray existingFileNames newName
      then nextFreeIndex fuel lcFileName existingFileNames
      else Ok (index, existingFileNames)
  end.

(** The loop gets one round more than the table has keys: a loop that stops
    at all stops within these ([nextFreeIndex_fuel]). *)
Definition getUniqueFilename (existingFileNames : NameTable) (fileName : string)
    : Res (string * NameTable) :=
  let lcFileName := toLowerCase fileName in
  if inArray existingFileNames lcFileName then
    '(index, existingFileNames) ←
      nextFreeIndex (S (size existingFileNames)) lcFileName existingFileNames;
    Ok (fileName +:+ "_" +:+ numberToString index, existingFileNames)
  else Ok (fileName, setNew existingFileNames lcFileName).

(** ** The functions that close over [format] and the repository *)

Section exportToTar.
Context `{Libraries}.
Variable repository : Repository.
Variable format : string.

(** tar.js:44-64 *)
Definition chooseExtension (note : Note) : string :=
  if String.eqb (note_type note) "text" && String.eqb format "markdown" then "md"
  else if String.eqb (note_mime note) "application/x-javascript" then "js"
  else toString (orElse (mimeTypes_extension (note_mime note)) (Some "dat")).

Definition withExtension (baseFileName extension : string) : string :=
  if endsWith (toLowerCase baseFileName) extension then baseFileName
  else baseFileName +:+ "." +:+ extension.

Definition getDataFileName (note : Note) (baseFileName : string)
    (existingFileNames : NameTable) : Res (string * NameTable) :=
  let extension := chooseExtension note in
  let fileName := withExtension baseFileName extension in
  getUniqueFilename existingFileNames fileName.

(** tar.js:73 *)
Definition baseFileNameOf (branch : Branch) (note : Note) : string :=
  if truthy (branch_prefix branch)
  then toString (branch_prefix branch) +:+ " - " +:+ note_title note
  else note_title note.

(** tar.js:87-115 *)
Definition newMeta (branch : Branch) (note : Note) : Meta := {|
  meta_noteId := branch_noteId branch;
  meta_title := note_title note;
  meta_prefix := branch_prefix branch;
  meta_isExpanded := branch_isExpanded branch;
  meta_type := note_type note;
  meta_mime := note_mime note;
  meta_attributes := getOwnedAttributes note;
  meta_links := getLinks note;
  meta_format := if String.eqb (note_type note) "text" then Some format else None
|}.

(** The loop of tar.js:132-139 over a function standing for the recursive
    call. *)
Section children.
Variable getNote :
  Branch → NameTable → Registry → Res (option NoteMeta * NameTable * Registry).

Fixpoint getChildren (childBranches : list Branch) (children : list NoteMeta)
    (existingFileNames : NameTable) (noteIdToMeta : Registry)
    : Res (list NoteMeta * NameTable * Registry) :=
  match childBranches with
  | [] => Ok (children, existingFileNames, noteIdToMeta)
  | childBranch :: childBranches =>
      '(note, existingFileNames, noteIdToMeta) ←
        getNote childBranch existingFileNames noteIdToMeta;
      let children :=
        match note with
        | Some note => children ++ [note]
        | None => children
        end in
      getChildren childBranches children existingFileNames noteIdToMeta
  end.
End children.

(** tar.js:66-143.  [fuel] bounds the depth of the recursion. *)
Fixpoint getNote (fuel : nat) (branch : Branch)
    (existingFileNames : NameTable) (noteIdToMeta : Registry)
    : Res (option NoteMeta * NameTable * Registry) :=
  match fuel with
  | O => Diverge
  | S fuel =>
      match repository !! branch_noteId branch with
      | None => Throw "TypeError: note is null"
      | Some note =>
          if hasLabel note "excludeFromExport"
          then Ok (None, existingFileNames, noteIdToMeta)
          else
            let noteId := branch_noteId branch in
            let baseFileName := baseFileNameOf branch note in
            match noteIdToMeta !! noteId with
            | Some _ =>
                let sanitizedFileName := sanitize (baseFileName +:+ ".clone") in
                '(fileName, existingFileNames) ←
                  getUniqueFilename existingFileNames sanitizedFileName;
                Ok (Some (CloneMeta noteId (branch_prefix branch) fileName),
                    existingFileNames, noteIdToMeta)
            | None =>
                let meta := newMeta branch note in
                let noteIdToMeta := <[noteId := meta]> noteIdToMeta in
                let childBranches := getChildBranches note in
                '(dataFileName, existingFileNames) ←
                  (if (0 <? String.length (note_content note))%nat
                      || (length childBranches =? 0)%nat
                   then
                     '(fileName, existingFileNames) ←
                       getDataFileName note baseFileName existingFileNames;
                     Ok (Some fileName, existingFileNames)
                   else Ok (None, existingFileNames));
                if (0 <? length childBranches)%nat then
                  '(dirFileName, existingFileNames) ←
                    getUniqueFilename existingFileNames baseFileName;
                  let childExistingNames : NameTable := ∅ in
                  '(children, existingFileNames, noteIdToMeta) ←
                    getChildren (getNote fuel) childBranches []
                      existingFileNames noteIdToMeta;
                  Ok (Some (FullMeta meta dataFileName (Some dirFileName) (Some children)),
                      existingFileNames, noteIdToMeta)
                else
                  Ok (Some (FullMeta meta dataFileName None None),
                      existingFileNames, noteIdToMeta)
            end
      end
  end.

(** tar.js:145-155 *)
Definition prepareContent (note : Note) (format : option string) : string :=
  match format with
  | Some "html" => html_prettyPrint (note_content note)
  | Some "markdown" => turndown (note_content note)
  | _ => note_content note
  end.

(** The loop of tar.js:183-185. *)
Section each.
Context {A S : Type}.
Variable body : A → S → Res S.

Fixpoint forEach (items : list A) (s : S) : Res S :=
  match items with
  | [] => Ok s
  | item :: items => s ← body item s; forEach items s
  end.
End each.

(** tar.js:160-187.  The state is [notePaths] and the entries written to
    [pack] so far. *)
Fixpoint saveNote (noteMeta : NoteMeta) (path : string)
    (st : gmap string string * list PackCall)
    : Res (gmap string string * list PackCall) :=
  let '(notePaths, pack) := st in
  match noteMeta with
  | CloneMeta noteId _ dataFileName =>
      let content := "Note is present at " +:+ toString (notePaths !! noteId) in
      Ok (notePaths,
          pack ++ [FileEntry (path +:+ "/" +:+ dataFileName) (String.length content) content])
  | FullMeta meta dataFileName dirFileName children =>
      match repository !! meta_noteId meta with
      | None => Throw "TypeError: note is null"
      | Some note =>
          let notePaths :=
            <[meta_noteId meta :=
                path +:+ "/" +:+ toString (orElse dataFileName dirFileName)]> notePaths in
          let pack :=
            if truthy dataFileName then
              let content := prepareContent note (meta_format meta) in
              pack ++ [FileEntry (path +:+ "/" +:+ toString dataFileName)
                         (String.length content) content]
            else pack in
          match children with
          | Some ((_ :: _) as children) =>
              let directoryPath := path +:+ "/" +:+ toString dirFileName in
              let pack := pack ++ [DirectoryEntry directoryPath] in
              forEach (λ childMeta, saveNote childMeta directoryPath)
                children (notePaths, pack)
          | _ => Ok (notePaths, pack)
          end
      end
  end.

(** What [saveNote] does at one node, without the walk into its children. *)
Definition saveOne (item : string * NoteMeta)
    (st : gmap string string * list PackCall)
    : Res (gmap string string * list PackCall) :=
  let '(path, noteMeta) := item in
  let '(notePaths, pack) := st in
  match noteMeta with
  | CloneMeta noteId _ dataFileName =>
      let content := "Note is present at " +:+ toString (notePaths !! noteId) in
      Ok (notePaths,
          pack ++ [FileEntry (path +:+ "/" +:+ dataFileName) (String.length content) content])
  | FullMeta meta dataFileName dirFileName children =>
      match repository !! meta_noteId meta with
      | None => Throw "TypeError: note is null"
      | Some note =>
          let notePaths :=
            <[meta_noteId meta :=
                path +:+ "/" +:+ toString (orElse dataFileName dirFileName)]> notePaths in
          let pack :=
            if truthy dataFileName then
              let content := prepareContent note (meta_format meta) in
              pack ++ [FileEntry (path +:+ "/" +:+ toString dataFileName)
                         (String.length content) content]
            else pack in
          match children with
          | Some (_ :: _) =>
              Ok (notePaths, pack ++ [DirectoryEntry (path +:+ "/" +:+ toString dirFileName)])
          | _ => Ok (notePaths, pack)
          end
      end
  end.

(** tar.js:196-200: the pass over [Object.values(noteIdToMeta)]. *)
Definition keepAttribute (noteIdToMeta : Registry) (attr : Attribute) : bool :=
  negb (String.eqb (attr_type attr) "relation")
  || inObject noteIdToMeta (attr_value attr).

Definition keepLink (noteIdToMeta : Registry) (link : Link) : bool :=
  inObject noteIdToMeta (targetNoteId link).

Definition filterMeta (noteIdToMeta : Registry) (noteMeta : Meta) : Meta := {|
  meta_noteId := meta_noteId noteMeta;
  meta_title := meta_title noteMeta;
  meta_prefix := meta_prefix noteMeta;
  meta_isExpanded := meta_isExpanded noteMeta;
  meta_type := meta_type noteMeta;
  meta_mime := meta_mime noteMeta;
  meta_attributes := List.filter (keepAttribute noteIdToMeta) (meta_attributes noteMeta);
  meta_links := List.filter (keepLink noteIdToMeta) (meta_links noteMeta);
  meta_format := meta_format noteMeta
|}.

Definition filterReferences (noteIdToMeta : Registry) : Registry :=
  filterMeta noteIdToMeta <$> noteIdToMeta.

(** The nodes of the manifest are the objects stored in [noteIdToMeta]:
    what the pass above assigns to a stored object shows in the node with
    that [noteId]. *)
Fixpoint reload (noteIdToMeta : Registry) (noteMeta : NoteMeta) : NoteMeta :=
  match noteMeta with
  | CloneMeta _ _ _ => noteMeta
  | FullMeta meta dataFileName dirFileName children =>
      FullMeta (default meta (noteIdToMeta !! meta_noteId meta))
        dataFileName dirFileName
        (List.map (reload noteIdToMeta) <$> children)
  end.

(** tar.js:14-222 *)
Definition exportToTar (fuel : nat) (branch : Branch)
    : Res (list PackCall * list ResCall) :=
  '(root, _, noteIdToMeta) ← getNote fuel branch ∅ ∅;
  let noteIdToMeta := filterReferences noteIdToMeta in
  match root with
  | None => Ok ([], [SendStatus 400])
  | Some root =>
      let root := reload noteIdToMeta root in
      let metaFile := {| version := 1; files := [Some root] |} in
      let metaFileJson := JSON_stringify metaFile in
      let pack := [FileEntry "!!!meta.json" (String.length metaFileJson) metaFileJson] in
      '(_, pack) ← saveNote root "" (∅, pack);
      let pack := pack ++ [Finalize] in
      match repository !! branch_noteId branch with
      | None => Throw "TypeError: note is null"
      | Some note =>
          let tarFileName :=
            sanitize ((if truthy (branch_prefix branch)
                       then toString (branch_prefix branch) +:+ " - "
                       else "") +:+ note_title note) in
          Ok (pack,
              [SetHeader "Content-Disposition"
                 ("file; filename=" +:+ dquote +:+ tarFileName +:+ ".tar" +:+ dquote);
               SetHeader "Content-Type" "application/tar";
               Pipe pack])
      end
  end.
End exportToTar.

(** ** Reading a manifest *)

Definition isClone (noteMeta : NoteMeta) : bool :=
  match noteMeta with CloneMeta _ _ _ => true | FullMeta _ _ _ _ => false end.

Definition noteIdOf (noteMeta : NoteMeta) : string :=
  match noteMeta with
  | CloneMeta noteId _ _ => noteId
  | FullMeta meta _ _ _ => meta_noteId meta
  end.

Definition dataFileNameOf (noteMeta : NoteMeta) : option string :=
  match noteMeta with
  | CloneMeta _ _ dataFileName => Some dataFileName
  | FullMeta _ dataFileName _ _ => dataFileName
  end.

Definition dirFileNameOf (noteMeta : NoteMeta) : option string :=
  match noteMeta with
  | CloneMeta _ _ _ => None
  | FullMeta _ _ dirFileName _ => dirFileName
  end.

Definition childrenOf (noteMeta : NoteMeta) : list NoteMeta :=
  match noteMeta with
  | FullMeta _ _ _ (Some children) => children
  | _ => []
  end.

(** The names a node puts into the directory that holds it. *)
Definition namesOf (noteMeta : NoteMeta) : list string :=
  match dataFileNameOf noteMeta, dirFileNameOf noteMeta with
  | Some f, Some d => [f; d]
  | Some f, None => [f]
  | None, Some d => [d]
  | None, None => []
  end.

(** The nodes of a manifest in the order of the depth-first walk, each with
    the path of the directory that holds it: the children of a node are held
    by [path/dirFileName]. *)
Fixpoint located (path : string) (noteMeta : NoteMeta) : list (string * NoteMeta) :=
  (path, noteMeta) ::
  match noteMeta with
  | FullMeta _ _ dirFileName (Some children) =>
      flat_map (located (path +:+ "/" +:+ toString dirFileName)) children
  | _ => []
  end.

(** The nodes alone, in the same order. *)
Fixpoint nodes (noteMeta : NoteMeta) : list NoteMeta :=
  noteMeta ::
  match noteMeta with
  | FullMeta _ _ _ (Some children) => flat_map nodes children
  | _ => []
  end.

(** The path [saveNote] records for a metadata object held by [path]. *)
Definition emittedPath (path : string) (noteMeta : NoteMeta) : string :=
  path +:+ "/" +:+ toString (orElse (dataFileNameOf noteMeta) (dirFileNameOf noteMeta)).

(** The paths a walk records, one metadata object after the other. *)
Definition recordOne (notePaths : gmap string string) (item : string * NoteMeta)
    : gmap string string :=
  if isClone item.2 then notePaths
  else <[noteIdOf item.2 := emittedPath item.1 item.2]> notePaths.

Definition recordPaths (walk : list (string * NoteMeta))
    (notePaths : gmap string string) : gmap string string :=
  foldl recordOne notePaths walk.

(** The ids of the metadata objects (not the stubs) of a walk. *)
Definition fullIds (walk : list NoteMeta) : list string :=
  noteIdOf <$> List.filter (λ n, negb (isClone n)) walk.

(** A walk in which every stub comes after the metadata object of its note,
    or refers to a note in [known], and no note has two metadata objects. *)
Fixpoint firstThenStubs (known : gset string) (walk : list NoteMeta) : Prop :=
  match walk with
  | [] => True
  | CloneMeta noteId _ _ :: walk => (noteId ∈ known) ∧ firstThenStubs known walk
  | FullMeta meta _ _ _ :: walk =>
      (meta_noteId meta ∉ known) ∧ firstThenStubs ({[meta_noteId meta]} ∪ known) walk
  end.

(** A metadata object of the manifest is the object stored under its id; it
    has no data file name exactly when its note has children and no content,
    and a directory name exactly when its note has children. *)
Definition storedNode (repository : Repository) (noteIdToMeta : Registry)
    (noteMeta : NoteMeta) : Prop :=
  match noteMeta with
  | CloneMeta _ _ _ => True
  | FullMeta meta dataFileName dirFileName _ =>
      noteIdToMeta !! meta_noteId meta = Some meta
      ∧ ∃ note,
          repository !! meta_noteId meta = Some note
          ∧ (dataFileName = None
             ↔ note_content note = "" ∧ getChildBranches note ≠ [])
          ∧ (is_Some dirFileName ↔ getChildBranches note ≠ [])
  end.

(** What a call of [getNote] that returns the nodes [walk] does to
    [noteIdToMeta]: it adds the metadata objects of [walk] and nothing else. *)
Definition registers (repository : Repository) (before : Registry)
    (walk : list NoteMeta) (after : Registry) : Prop :=
  before ⊆ after
  ∧ dom after = list_to_set (fullIds walk) ∪ dom before
  ∧ firstThenStubs (dom before) walk
  ∧ Forall (storedNode repository after) walk.

(** The manifest a call of [getNote] returns, and what it lays out: where
    each node is held, for which note, under which names. *)
Definition builtManifest (result : Res (option NoteMeta * NameTable * Registry))
    : option NoteMeta :=
  match result with
  | Ok (Some noteMeta, _, _) => Some noteMeta
  | _ => None
  end.

Definition layout (noteMeta : NoteMeta) : list (string * string * list string) :=
  (λ item, (item.1, noteIdOf item.2, namesOf item.2)) <$> located "" noteMeta.

(** Every child branch of the repository leads to a note of the repository. *)
Definition closedRepository (repository : Repository) : Prop :=
  map_Forall (λ _ note,
    Forall (λ b, is_Some (repository !! branch_noteId b)) (getChildBranches note))
    repository.

(** ** Sample libraries and repositories

    Stand-ins for the required modules, used to run the export on concrete
    repositories; the general statements below hold for every instance of
    [Libraries]. *)

Definition illegalCharacters : list ascii :=
  ["/"; "?"; "<"; ">"; "\"; ":"; "*"; "|"; ascii_of_nat 34]%char.

Fixpoint removeIllegal (s : string) : string :=
  match s with
  | EmptyString => EmptyString
  | String c s' =>
      if bool_decide (c ∈ illegalCharacters) then removeIllegal s'
      else String c (removeIllegal s')
  end.

Definition sampleLibraries : Libraries := {|
  sanitize := removeIllegal;
  mimeTypes_extension := λ mime,
    if String.eqb mime "text/html" then Some "html"
    else if String.eqb mime "image/png" then Some "png"
    else None;
  html_prettyPrint := λ content, content;
  turndown := λ content, content;
  JSON_stringify := λ metaFile, ("{version: " +:+ pretty (version metaFile) +:+ "}")
|}.

Definition textNote (title content : string) (childBranches : list Branch) : Note := {|
  note_title := title;
  note_type := "text";
  note_mime := "text/html";
  note_content := content;
  hasLabel := λ _, false;
  getOwnedAttributes := [];
  getLinks := [];
  getChildBranches := childBranches
|}.

Definition excluded (note : Note) : Note := {|
  note_title := note_title note;
  note_type := note_type note;
  note_mime := note_mime note;
  note_content := note_content note;
  hasLabel := λ name, String.eqb name "excludeFromExport";
  getOwnedAttributes := getOwnedAttributes note;
  getLinks := getLinks note;
  getChildBranches := getChildBranches note
|}.

Definition branchTo (noteId : string) : Branch := {|
  branch_noteId := noteId;
  branch_prefix := None;
  branch_isExpanded := false
|}.

(** The end-to-end scenario of the specification: "Root" with the children
    "A" and "a". *)
Definition scenarioRepository : Repository :=
  list_to_map [
    ("root", textNote "Root" "" [branchTo "n1"; branchTo "n2"]);
    ("n1", textNote "A" "hi" []);
    ("n2", textNote "a" "bye" [])].

(** A note "x" with content and one child, also titled "x". *)
Definition nestedRepository : Repository :=
  list_to_map [
    ("top", textNote "x" "r" [branchTo "sub"]);
    ("sub", textNote "x" "" [])].

(** Two leaves titled "a" and a note titled "a.md_1" that has a child. *)
Definition collidingRepository : Repository :=
  list_to_map [
    ("root", textNote "r" "" [branchTo "n1"; branchTo "n2"; branchTo "n3"]);
    ("n1", textNote "a" "1" []);
    ("n2", textNote "a" "2" []);
    ("n3", textNote "a.md_1" "" [branchTo "n4"]);
    ("n4", textNote "z" "4" [])].

(** A note whose title has a character that is illegal in a file name, with
    one child. *)
Definition unsafeTitleRepository : Repository :=
  list_to_map [
    ("root", textNote "a/b" "" [branchTo "n1"]);
    ("n1", textNote "c" "1" [])].

(** The note "X" under both "P1" and "P2". *)
Definition cloneRepository : Repository :=
  list_to_map [
    ("root", textNote "R" "" [branchTo "p1"; branchTo "p2"]);
    ("p1", textNote "P1" "" [branchTo "x"]);
    ("p2", textNote "P2" "" [branchTo "x"]);
    ("x", textNote "X" "text" [])].

(** "A" is the parent of "B" and "B" the parent of "A". *)
Definition cyclicRepository : Repository :=
  list_to_map [
    ("a", textNote "A" "" [branchTo "b"]);
    ("b", textNote "B" "" [branchTo "a"])].

(** A root that carries the exclusion label. *)
Definition excludedRepository : Repository :=
  list_to_map [
    ("root", excluded (textNote "Root" "body" [branchTo "n1"]));
    ("n1", textNote "A" "hi" [])].

(** A note with a relation to a note outside the export, a relation to a
    note inside it, a label, and two links. *)
Definition relation (name value : string) : Attribute := {|
  attr_type := "relation"; attr_name := name; attr_value := value;
  attr_isInheritable := false; attr_position := 0
|}.

Definition label (name value : string) : Attribute := {|
  attr_type := "label"; attr_name := name; attr_value := value;
  attr_isInheritable := false; attr_position := 0
|}.




(** ** The manifest and the branches *)

(** The prefix a node carries. *)
Definition prefixOf (noteMeta : NoteMeta) : option string :=
  match noteMeta with
  | CloneMeta _ prefix _ => prefix
  | FullMeta meta _ _ _ => meta_prefix meta
  end.

(** A branch whose note is in the repository and is not excluded. *)
Definition exportable (repository : Repository) (branch : Branch) : bool :=
  match repository !! branch_noteId branch with
  | Some note => negb (hasLabel note "excludeFromExport")
  | None => false
  end.

(** A node stands for a branch: it is for the note of the branch and carries
    its prefix. *)
Definition standsFor (branch : Branch) (noteMeta : NoteMeta) : Prop :=
  noteIdOf noteMeta = branch_noteId branch
  ∧ prefixOf noteMeta = branch_prefix branch.

(** What a node of a built manifest has to do with the repository: it stands
    for a branch to a note that is not excluded; a stub is named after the
    sanitized base name with ".clone"; a metadata object has the fields of
    the note, a data file name (never empty, made from the base name with
    the extension) unless the note has children and no content, a directory
    name (made from the base name) and children exactly when the note has
    child branches, and one child for every exportable child branch, in the
    order of the branches. *)
Definition builtNode `{Libraries} (repository : Repository) (format : string)
    (noteMeta : NoteMeta) : Prop :=
  ∃ branch note,
    standsFor branch noteMeta
    ∧ repository !! noteIdOf noteMeta = Some note
    ∧ hasLabel note "excludeFromExport" = false
    ∧ match noteMeta with
      | CloneMeta _ _ dataFileName =>
          suffixed (sanitize (baseFileNameOf branch note +:+ ".clone")) dataFileName
      | FullMeta meta dataFileName dirFileName children =>
          meta = newMeta format branch note
          ∧ (dataFileName = None
             ↔ note_content note = "" ∧ getChildBranches note ≠ [])
          ∧ (∀ f, dataFileName = Some f →
               f ≠ ""
               ∧ suffixed (withExtension (baseFileNameOf branch note)
                             (chooseExtension format note)) f)
          ∧ (is_Some dirFileName ↔ getChildBranches note ≠ [])
          ∧ (∀ dir, dirFileName = Some dir → suffixed (baseFileNameOf branch note) dir)
          ∧ (is_Some children ↔ getChildBranches note ≠ [])
          ∧ Forall2 standsFor
              (List.filter (exportable repository) (getChildBranches note))
              (default [] children)
      end.

(** ** Names that no array has or inherits *)

(** A candidate whose lower-cased form is neither "length" nor the name of
    an inherited member. *)
Definition plainName (fileName : string) : bool :=
  negb (inherits inheritedByArray (toLowerCase fileName)).

(** Successive calls of [getUniqueFilename] on one table, as [getNote] makes
    them for the names of one export. *)
Fixpoint getUniqueFilenames (existingFileNames : NameTable) (fileNames : list string)
    : Res (list string * NameTable) :=
  match fileNames with
  | [] => Ok ([], existingFileNames)
  | fileName :: fileNames =>
      '(name, existingFileNames) ← getUniqueFilename existingFileNames fileName;
      '(names, existingFileNames) ← getUniqueFilenames existingFileNames fileNames;
      Ok (name :: names, existingFileNames)
  end.

(** No candidate is, lower-cased, another candidate followed by [_index]. *)
Definition clashFree (fileNames : list string) : Prop :=
  ∀ f g index, f ∈ fileNames → g ∈ fileNames →
    toLowerCase f ≠ toLowerCase g +:+ "_" +:+ pretty (index : N).

(** A name handed out from a table: a key of the table, or a key other
    than "length" followed by an index below the counter of the key. *)
Definition issuedFrom (existingFileNames : NameTable) (name : string) : Prop :=
  is_Some (existingFileNames !! name)
  ∨ ∃ key counter index,
      key ≠ "length"
      ∧ existingFileNames !! key = Some counter
      ∧ (index < counter)%N
      ∧ name = key +:+ "_" +:+ pretty index.

(** The candidates [getNote] may hand to [getUniqueFilename] for a branch:
    the name of a stub, of the data file and of the directory. *)
Definition candidateNames `{Libraries} (format : string) (branch : Branch) (note : Note)
    : list string :=
  [sanitize (baseFileNameOf branch note +:+ ".clone");
   withExtension (baseFileNameOf branch note) (chooseExtension format note);
   baseFileNameOf branch note].

(** A branch to a note of the repository all of whose candidates are plain. *)
Definition plainBranch `{Libraries} (repository : Repository) (format : string)
    (branch : Branch) : bool :=
  match repository !! branch_noteId branch with
  | Some note => forallb plainName (candidateNames format branch note)
  | None => false
  end.

(** The root branch and every child branch of the repository are plain. *)
Definition plainRepository `{Libraries} (repository : Repository) (format : string)
    (branch : Branch) : bool :=
  plainBranch repository format branch
  && forallb (λ item, forallb (plainBranch repository format) (getChildBranches item.2))
       (map_to_list repository).

(** The table and the registry a call of [getNote] leaves. *)
Definition tableOf (result : Res (option NoteMeta * NameTable * Registry)) : NameTable :=
  match result with
  | Ok (_, existingFileNames, _) => existingFileNames
  | _ => ∅
  end.

Definition registryOf (result : Res (option NoteMeta * NameTable * Registry)) : Registry :=
  match result with
  | Ok (_, _, noteIdToMeta) => noteIdToMeta
  | _ => ∅
  end.

(** The manifest as it is when it is written out (tar.js:207): the nodes
    show what the pass over the references has left of their links and
    attributes. *)
Definition shippedManifest `{Libraries} (repository : Repository) (format : string)
    (fuel : nat) (branch : Branch) : option NoteMeta :=
  match getNote repository format fuel branch ∅ ∅ with
  | Ok (Some root, _, noteIdToMeta) => Some (reload (filterReferences noteIdToMeta) root)
  | _ => None
  end.

(** The ids of the notes of an export: the keys of [noteIdToMeta]. *)
Definition exportedIds `{Libraries} (repository : Repository) (format : string)
    (fuel : nat) (branch : Branch) : list string :=
  match getNote repository format fuel branch ∅ ∅ with
  | Ok (_, _, noteIdToMeta) => (map_to_list noteIdToMeta).*1
  | _ => []
  end.

(** The targets of the links and the values of the relations of a node. *)
Definition referencesOf (noteMeta : NoteMeta) : list string * list string :=
  match noteMeta with
  | CloneMeta _ _ _ => ([], [])
  | FullMeta meta _ _ _ =>
      (targetNoteId <$> meta_links meta,
       attr_value <$>
         List.filter (λ attr, String.eqb (attr_type attr) "relation") (meta_attributes meta))
  end.

(** ** The entries of the archive *)

(** What the emitter writes for a note: a file entry whose size is the
    length of its content, or a directory entry, under a name that starts
    with a slash; never the end of the archive. *)
Definition emitted (entry : PackCall) : Prop :=
  match entry with
  | FileEntry name size content =>
      size = String.length content ∧ String.prefix "/" name = true
  | DirectoryEntry name => String.prefix "/" name = true
  | Finalize => False
  end.

(** The root of the archive, or a path below it. *)
Definition archivePath (path : string) : Prop :=
  path = "" ∨ String.prefix "/" path = true.

(** The entries of one node, given the paths recorded for the notes: for a
    stub the placeholder that names the path of its note, for a metadata
    object the data file, when it has a data file name, and then the
    directory, when it has a child. *)
Definition entriesOf `{Libraries} (repository : Repository)
    (notePaths : gmap string string) (item : string * NoteMeta) : list PackCall :=
  match item.2 with
  | CloneMeta noteId _ dataFileName =>
      let content := "Note is present at " +:+ toString (notePaths !! noteId) in
      [FileEntry (item.1 +:+ "/" +:+ dataFileName) (String.length content) content]
  | FullMeta meta dataFileName dirFileName children =>
      match repository !! meta_noteId meta with
      | None => []
      | Some note =>
          (if truthy dataFileName then
             let content := prepareContent note (meta_format meta) in
             [FileEntry (item.1 +:+ "/" +:+ toString dataFileName)
                (String.length content) content]
           else [])
          ++ match children with
             | Some (_ :: _) => [DirectoryEntry (item.1 +:+ "/" +:+ toString dirFileName)]
             | _ => []
             end
      end
  end.

(** ** More sample repositories *)

(** A note, exported alone, with links and relations to "gone", which is no
    note of the export, and to "constructor" and "toString". *)
Definition danglingRepository : Repository :=
  list_to_map [
    ("n1", {| note_title := "A"; note_type := "text"; note_mime := "text/html";
              note_content := "a"; hasLabel := λ _, false;
              getOwnedAttributes :=
                [relation "author" "gone"; relation "template" "toString";
                 label "tag" "gone"];
              getLinks := [{| link_type := "hyper"; targetNoteId := "gone" |};
                           {| link_type := "hyper"; targetNoteId := "constructor" |}];
              getChildBranches := [] |})].





(** A directory titled "__proto___0", in it a directory titled "__proto__",
    in it a leaf. *)
Definition protoRepository : Repository :=
  list_to_map [
    ("top", textNote "__proto___0" "" [branchTo "mid"]);
    ("mid", textNote "__proto__" "" [branchTo "leaf"]);
    ("leaf", textNote "x" "1" [])].

(** A root with three children, the second of which is excluded. *)
Definition excludedChildRepository : Repository :=
  list_to_map [
    ("root", textNote "Root" "" [branchTo "n1"; branchTo "n2"; branchTo "n3"]);
    ("n1", textNote "A" "1" []);
    ("n2", excluded (textNote "B" "2" []));
    ("n3", textNote "C" "3" [])].


(** A root without content whose only child is excluded. *)
Definition onlyExcludedChildRepository : Repository :=
  list_to_map [
    ("root", textNote "Root" "" [branchTo "n1"]);
    ("n1", excluded (textNote "A" "1" []))].

(** ** The similar-notes widget *)

(** [SimilarNotesWidget] of [part_000].  The server, the tree cache and the
    link service are other modules: they are the fields of [Services], each
    a function of the state of the front end, of which nothing is assumed.
    The elements the widget builds are data; the link the link service makes
    for a path is the leaf [NoteLinkWithPath] of that path. *)
Module SimilarNotesWidget.

Record SimilarNote := {
  noteId : string;
  notePath : list string;
}.

#[warnings="-register-all"] Inductive Html :=
  | Text (text : string)
  | Ul (items : list Html)
  | Li (child : Html)
  | NoteLinkWithPath (notePath : string).

Class Services (World : Type) := {
  server_get : string → World → list SimilarNote * World;
  (* whether [treeCache.getNote] gives a note *)
  treeCache_getNote : string → World → bool * World;
  treeCache_getNotes : list string → World → World;
  linkService_createNoteLinkWithPath : string → World → World;
}.

Definition getWidgetTitle : string := "Similar notes".

Definition getMaxHeight : string := "200px".

(** [Array.prototype.join] *)
Fixpoint join (separator : string) (parts : list string) : string :=
  match parts with
  | [] => ""
  | [part] => part
  | part :: parts => part +:+ separator +:+ join separator parts
  end.

Section widget.
Context {World : Type} `{Services World}.

(** The loop over the similar notes; [items] is the content of [$list]. *)
Fixpoint renderItems (similarNotes : list SimilarNote) (items : list Html) (world : World)
    : list Html * World :=
  match similarNotes with
  | [] => (items, world)
  | similarNote :: similarNotes =>
      let '(note, world) := treeCache_getNote (noteId similarNote) world in
      if note then
        let path := join "/" (notePath similarNote) in
        let world := linkService_createNoteLinkWithPath path world in
        renderItems similarNotes (items ++ [Li (NoteLinkWithPath path)]) world
      else renderItems similarNotes items world
  end.

(** The content of [$body] after the call, and the state. *)
Definition doRenderBody (ctxNoteId : string) (world : World) : Html * World :=
  let '(similarNotes, world) := server_get ("similar_notes/" +:+ ctxNoteId) world in
  match similarNotes with
  | [] => (Text "No similar notes found ...", world)
  | _ :: _ =>
      let noteIds := flat_map notePath similarNotes in
      let world := treeCache_getNotes noteIds world in
      let '(items, world) := renderItems similarNotes [] world in
      (Ul items, world)
  end.

End widget.

(** The item shown for a similar note. *)
Definition itemOf (similarNote : SimilarNote) : Html :=
  Li (NoteLinkWithPath (join "/" (notePath similarNote))).

(** A front end whose state is the set of notes in the tree cache: the
    server answers with two similar notes, the preload puts the notes it is
    asked for into the cache except ["gone"], and nothing else changes the
    cache. *)
Definition sampleServices : Services (gset string) := {|
  server_get := λ url cache,
    (if String.eqb url "similar_notes/n0"
     then [ {| noteId := "gone"; notePath := ["root"; "gone"] |};
            {| noteId := "n2"; notePath := ["root"; "n1"; "n2"] |} ]
     else [], cache);
  treeCache_getNote := λ noteId cache, (bool_decide (noteId ∈ cache), cache);
  treeCache_getNotes := λ noteIds cache,
    cache ∪ list_to_set (List.filter (λ noteId, negb (String.eqb noteId "gone")) noteIds);
  linkService_createNoteLinkWithPath := λ _ cache, cache;
|}.

End SimilarNotesWidget.

(** * Properties *)

(** ** Strings *)

Lemma append_nil_l (t : string) : "" +:+ t = t.
Proof. reflexivity. Qed.

Lemma append_cons (c : ascii) (s t : string) :
  String c s +:+ t = String c (s +:+ t).
Proof. reflexivity. Qed.

Lemma length_append (s t : string) :
  String.length (s +:+ t) = String.length s + String.length t.
Proof.
  induction s as [|c s IH]; [done|].
  rewrite append_cons. simpl. by rewrite IH.
Qed.

Lemma append_assoc (s t u : string) : (s +:+ t) +:+ u = s +:+ (t +:+ u).
Proof.
  induction s as [|c s IH]; [done|].
  rewrite !append_cons. by rewrite IH.
Qed.

Lemma append_ne_self (s t : string) : t ≠ "" → s +:+ t ≠ s.
Proof.
  intros Ht Heq. apply (f_equal String.length) in Heq.
  rewrite length_append in Heq. destruct t; [done|]. simpl in Heq. lia.
Qed.

Lemma toLowerCase_app (s t : string) :
  toLowerCase (s +:+ t) = toLowerCase s +:+ toLowerCase t.
Proof.
  induction s as [|c s IH]; [done|].
  rewrite append_cons. simpl. by rewrite IH, append_cons.
Qed.

Lemma endsWith_cons (c : ascii) (s e : string) :
  endsWith (String c s) e
  = if String.eqb (String c s) e then true else endsWith s e.
Proof. reflexivity. Qed.

Lemma endsWith_refl (s : string) : endsWith s s = true.
Proof. destruct s; [done|]. by rewrite endsWith_cons, String.eqb_refl. Qed.

Lemma endsWith_app_r (s t e : string) :
  endsWith t e = true → endsWith (s +:+ t) e = true.
Proof.
  intros Ht. induction s as [|c s IH]; [done|].
  rewrite append_cons, endsWith_cons.
  destruct (String.eqb _ _); [done|]. exact IH.
Qed.

Lemma endsWith_suffix (s e : string) :
  endsWith s e = true ↔ ∃ t, s = t +:+ e.
Proof.
  split.
  - induction s as [|c s IH].
    + destruct e; [by exists ""|done].
    + rewrite endsWith_cons.
      destruct (String.eqb_spec (String c s) e) as [<-|_]; [by exists ""|].
      intros [t ->]%IH. by exists (String c t).
  - intros [t ->]. apply endsWith_app_r, endsWith_refl.
Qed.

(** The name tried in round [index] of the loop differs from the name whose
    counter is read, and two rounds try different names. *)
Lemma newName_ne (lcFileName : string) (index : N) :
  lcFileName +:+ "_" +:+ pretty index ≠ lcFileName.
Proof. by apply append_ne_self. Qed.

Lemma newName_inj (lcFileName : string) (i j : N) :
  lcFileName +:+ "_" +:+ pretty i = lcFileName +:+ "_" +:+ pretty j → i = j.
Proof.
  intros Heq. apply (inj (String.append lcFileName)) in Heq.
  simpl in Heq. injection Heq as Heq. by apply (inj pretty).
Qed.

(** ** Names that are not inherited *)

Lemma endsWithDigit_app (s t : string) :
  t ≠ "" → endsWithDigit (s +:+ t) = endsWithDigit t.
Proof.
  intros Ht. induction s as [|c s IH]; [done|].
  rewrite append_cons. simpl. rewrite IH.
  destruct (s +:+ t) eqn:Hst; [|done].
  destruct s; [|done]. by rewrite append_nil_l in Hst.
Qed.

Lemma pretty_N_char_digit (x : N) : isDigit (pretty_N_char x) = true.
Proof. unfold pretty_N_char. by repeat case_match. Qed.

Lemma pretty_N_go_digits (x : N) :
  ∀ s, isDigits s = true → isDigits (pretty_N_go x s) = true.
Proof.
  induction (N.lt_wf_0 x) as [x _ IH]; intros s Hs.
  destruct (decide (x = 0%N)) as [->|Hx]; [by rewrite pretty_N_go_0|].
  rewrite pretty_N_go_step by lia.
  apply IH; [apply N.div_lt; lia|].
  simpl. by rewrite pretty_N_char_digit, Hs.
Qed.

Lemma pretty_digits (index : N) : isDigits (pretty index) = true.
Proof.
  unfold pretty, pretty_N. case_decide; [done|]. by apply pretty_N_go_digits.
Qed.

Lemma pretty_N_go_nonempty (x : N) (s : string) : s ≠ "" → pretty_N_go x s ≠ "".
Proof.
  revert s. induction (N.lt_wf_0 x) as [x _ IH]; intros s Hs.
  destruct (decide (x = 0%N)) as [->|Hx]; [by rewrite pretty_N_go_0|].
  rewrite pretty_N_go_step by lia. apply IH; [apply N.div_lt; lia|done].
Qed.

Lemma pretty_nonempty (index : N) : pretty index ≠ "".
Proof.
  unfold pretty, pretty_N. case_decide; [done|].
  rewrite pretty_N_go_step by lia. by apply pretty_N_go_nonempty.
Qed.

Lemma digits_end_with_digit (s : string) :
  isDigits s = true → s ≠ "" → endsWithDigit s = true.
Proof.
  induction s as [|c s IH]; [done|]. simpl.
  intros [Hc Hs]%andb_true_iff _. destruct s; [done|]. by apply IH.
Qed.

Lemma newName_endsWithDigit (lcFileName : string) (index : N) :
  endsWithDigit (lcFileName +:+ "_" +:+ pretty index) = true.
Proof.
  rewrite endsWithDigit_app by (by destruct (pretty index)).
  rewrite endsWithDigit_app by apply pretty_nonempty.
  apply digits_end_with_digit; [apply pretty_digits|apply pretty_nonempty].
Qed.

(** A key that has a property none of the inherited names has is not one of
    them. *)
Lemma not_inherited (P : string → bool) (key : string) :
  forallb (λ name, negb (P name)) inheritedByArray = true →
  P key = true → key ∉ inheritedByArray.
Proof.
  intros Hall HP Hin. rewrite forallb_forall in Hall.
  apply list_elem_of_In, Hall in Hin. by rewrite HP in Hin.
Qed.

Lemma inherits_spec (names : list string) (key : string) :
  inherits names key = true ↔ key ∈ names.
Proof.
  unfold inherits. rewrite existsb_exists, list_elem_of_In. split.
  - by intros (name & Hin & ->%String.eqb_eq).
  - intros Hin. exists key. by rewrite String.eqb_refl.
Qed.

Lemma inArray_own (existingFileNames : NameTable) (key : string) :
  key ∉ inheritedByArray →
  inArray existingFileNames key = bool_decide (is_Some (existingFileNames !! key)).
Proof.
  intros Hkey. unfold inArray.
  destruct (inherits inheritedByArray key) eqn:Hin; [|by rewrite orb_false_r].
  by apply inherits_spec in Hin.
Qed.

Lemma newName_not_inherited (lcFileName : string) (index : N) :
  lcFileName +:+ "_" +:+ pretty index ∉ inheritedByArray.
Proof.
  apply (not_inherited endsWithDigit); [by vm_compute|apply newName_endsWithDigit].
Qed.

Lemma not_inherited_ne (key : string) :
  key ∉ inheritedByArray → key ≠ "__proto__" ∧ key ≠ "length".
Proof.
  intros Hkey. split; intros ->; apply Hkey; by apply inherits_spec.
Qed.

Lemma digits_not_suffix (s e : string) :
  endsWith s e = true → isDigits e = false → isDigits s = false.
Proof.
  intros [t ->]%endsWith_suffix He. induction t as [|c t IH]; [done|].
  rewrite append_cons. simpl. rewrite IH. apply andb_false_r.
Qed.

Lemma parseDecimal_digits (s : string) :
  ∀ acc, is_Some (parseDecimal acc s) → isDigits s = true.
Proof.
  induction s as [|c s IH]; intros acc; [done|]. simpl. unfold digitOf.
  destruct (isDigit c); simpl; [apply IH|by intros [? ?]].
Qed.

Lemma arrayIndex_digits (key : string) :
  is_Some (arrayIndex key) → isDigits key = true.
Proof.
  destruct key as [|c key]; [by intros [? ?]|]. unfold arrayIndex.
  destruct (parseDecimal 0 (String c key)) as [n|] eqn:Hn; [|by intros [? ?]].
  intros _. apply (parseDecimal_digits _ 0%N). by rewrite Hn.
Qed.

(** ** getUniqueFilename *)

(** The counter the loop reads for a name: the length of the array for
    "length", and the table's own for another name. *)
Lemma postIncrement_counter (existingFileNames : NameTable) (key : string) (counter : N) :
  key ≠ "__proto__" →
  counterOf existingFileNames key = Some counter →
  postIncrement existingFileNames key
    = Ok (Num counter, <[key := (counter + 1)%N]> existingFileNames)
  ∨ key = "length"
    ∧ postIncrement existingFileNames key = Throw "RangeError: Invalid array length".
Proof.
  intros Hproto Hcounter. unfold postIncrement, counterOf in *.
  destruct (String.eqb_spec key "__proto__") as [->|_]; [done|].
  destruct (String.eqb_spec key "length") as [->|_].
  - injection Hcounter as <-. destruct (_ <? _)%N; [by left|by right].
  - rewrite Hcounter. by left.
Qed.

Lemma nextFreeIndex_S (fuel : nat) (lcFileName : string) (existingFileNames : NameTable) :
  nextFreeIndex (S fuel) lcFileName existingFileNames
  = '(index, table) ← postIncrement existingFileNames lcFileName;
    if inArray table (lcFileName +:+ "_" +:+ numberToString index)
    then nextFreeIndex fuel lcFileName table
    else Ok (index, table).
Proof. reflexivity. Qed.

(** A loop that finds no number under its name goes round on the spot: it
    stops after one round or never. *)
Lemma nextFreeIndex_stationary (fuel : nat) (lcFileName : string)
    (existingFileNames : NameTable) (index : Number) :
  postIncrement existingFileNames lcFileName = Ok (index, existingFileNames) →
  nextFreeIndex (S fuel) lcFileName existingFileNames
  = if inArray existingFileNames (lcFileName +:+ "_" +:+ numberToString index)
    then Diverge else Ok (index, existingFileNames).
Proof.
  intros Hstep. induction fuel as [|fuel IH].
  - rewrite nextFreeIndex_S, Hstep. cbn [mbind Res_bind]. by destruct (inArray _ _).
  - rewrite nextFreeIndex_S, Hstep. cbn [mbind Res_bind]. rewrite IH.
    by destruct (inArray _ _).
Qed.

(** A loop that counts stops: it tries a new name each round and the table
    is finite.  It returns the first index, from the counter on, whose name
    is not a key of the table, and leaves the counter one past it; the loop
    over "length" may run into the greatest length there is. *)
Lemma nextFreeIndex_counting (fuel : nat) (lcFileName : string)
    (existingFileNames : NameTable) (counter : N) (tried : gset string) :
  lcFileName ≠ "__proto__" →
  counterOf existingFileNames lcFileName = Some counter →
  (∀ j, (counter ≤ j)%N →
     is_Some (existingFileNames !! (lcFileName +:+ "_" +:+ pretty j)) →
     lcFileName +:+ "_" +:+ pretty j ∈ tried) →
  size tried < fuel →
  (∃ index,
     nextFreeIndex fuel lcFileName existingFileNames
       = Ok (Num index, <[lcFileName := (index + 1)%N]> existingFileNames)
     ∧ (counter ≤ index)%N
     ∧ existingFileNames !! (lcFileName +:+ "_" +:+ pretty index) = None
     ∧ ∀ j, (counter ≤ j < index)%N →
         is_Some (existingFileNames !! (lcFileName +:+ "_" +:+ pretty j)))
  ∨ lcFileName = "length"
    ∧ nextFreeIndex fuel lcFileName existingFileNames
      = Throw "RangeError: Invalid array length".
Proof.
  intros Hproto. revert existingFileNames counter tried.
  induction fuel as [|fuel IH]; intros tbl counter tried Hc Htried Hsize; [lia|].
  simpl.
  destruct (postIncrement_counter tbl lcFileName counter Hproto Hc) as [->|[-> ->]];
    [|by right].
  simpl.
  rewrite inArray_own by apply newName_not_inherited.
  rewrite lookup_insert_ne by (symmetry; apply newName_ne).
  destruct (tbl !! (lcFileName +:+ "_" +:+ pretty counter)) as [v|] eqn:Hnew.
  - rewrite bool_decide_eq_true_2 by eauto.
    assert (Hin : lcFileName +:+ "_" +:+ pretty counter ∈ tried).
    { apply Htried; [lia|]. by rewrite Hnew. }
    destruct (IH (<[lcFileName := (counter + 1)%N]> tbl) (counter + 1)%N
                (tried ∖ {[lcFileName +:+ "_" +:+ pretty counter]}))
      as [(index & Hrun & Hle & Hfree & Hbusy)|[-> Hrun]].
    + unfold counterOf. rewrite lookup_insert_eq.
      unfold arrayLength. destruct (String.eqb_spec lcFileName "length") as [->|_];
        [by rewrite lookup_insert_eq|done].
    + intros j Hj Hsome.
      rewrite lookup_insert_ne in Hsome by (symmetry; apply newName_ne).
      apply elem_of_difference. split; [apply Htried; [lia|done]|].
      rewrite elem_of_singleton. intros Heq%newName_inj. lia.
    + assert (size tried
              = size ({[lcFileName +:+ "_" +:+ pretty counter]} : gset string)
                + size (tried ∖ {[lcFileName +:+ "_" +:+ pretty counter]})) as Hsplit.
      { rewrite <-size_union_alt. f_equal. apply leibniz_equiv. intros x.
        rewrite elem_of_union, elem_of_singleton.
        split; [tauto|]. by intros [->|]. }
      rewrite size_singleton in Hsplit. lia.
    + left. exists index. rewrite Hrun, insert_insert_eq.
      rewrite lookup_insert_ne in Hfree by (symmetry; apply newName_ne).
      split_and!; [done|lia|done|].
      intros j Hj. destruct (decide (j = counter)) as [->|Hne].
      * by rewrite Hnew.
      * specialize (Hbusy j).
        rewrite lookup_insert_ne in Hbusy by (symmetry; apply newName_ne).
        apply Hbusy. lia.
    + by right.
  - rewrite bool_decide_eq_false_2 by (by intros [? ?]).
    left. exists counter. split_and!; [done|lia|done|]. intros j Hj. lia.
Qed.

(** More rounds change nothing for a loop that has stopped. *)
Lemma nextFreeIndex_more (fuel extra : nat) (lcFileName : string) :
  ∀ existingFileNames,
    terminated (nextFreeIndex fuel lcFileName existingFileNames) = true →
    nextFreeIndex (fuel + extra) lcFileName existingFileNames
    = nextFreeIndex fuel lcFileName existingFileNames.
Proof.
  induction fuel as [|fuel IH]; intros tbl; [done|]. simpl.
  destruct (postIncrement tbl lcFileName) as [[index tbl1]| |]; simpl; [|done..].
  destruct (inArray tbl1 _); [apply IH|done].
Qed.

(** The rounds [getUniqueFilename] allows are enough for every loop that
    stops. *)
Lemma nextFreeIndex_fuel (fuel : nat) (lcFileName : string)
    (existingFileNames : NameTable) :
  S (size existingFileNames) ≤ fuel →
  nextFreeIndex fuel lcFileName existingFileNames
  = nextFreeIndex (S (size existingFileNames)) lcFileName existingFileNames.
Proof.
  intros Hfuel.
  destruct (decide (lcFileName = "__proto__")) as [->|Hproto].
  { destruct fuel as [|fuel]; [lia|]. by rewrite !(nextFreeIndex_stationary _ _ _ (Num 0)). }
  destruct (counterOf existingFileNames lcFileName) as [counter|] eqn:Hc.
  - replace fuel with (S (size existingFileNames) + (fuel - S (size existingFileNames)))
      by lia.
    apply nextFreeIndex_more.
    destruct (nextFreeIndex_counting (S (size existingFileNames)) lcFileName
                existingFileNames counter (dom existingFileNames) Hproto Hc)
      as [(index & -> & _)|[_ ->]]; [|rewrite size_dom; lia|done..].
    intros j _ Hsome. by apply elem_of_dom.
  - assert (postIncrement existingFileNames lcFileName = Ok (NaN, existingFileNames))
      as Hstep.
    { unfold postIncrement, counterOf in *.
      destruct (String.eqb_spec lcFileName "__proto__") as [->|_]; [done|].
      destruct (String.eqb_spec lcFileName "length") as [->|_]; [done|].
      by rewrite Hc. }
    destruct fuel as [|fuel]; [lia|]. by rewrite !(nextFreeIndex_stationary _ _ _ NaN).
Qed.

(** What [getUniqueFilename] does with a candidate whose lower-cased form is
    no name an array has or inherits: it returns the candidate itself when
    the lower-cased form is new to the table, and the candidate followed by
    [_index] otherwise. *)
Lemma getUniqueFilename_spec (existingFileNames : NameTable) (fileName : string) :
  toLowerCase fileName ∉ inheritedByArray →
  ∃ name table,
    getUniqueFilename existingFileNames fileName = Ok (name, table)
    ∧ (existingFileNames !! toLowerCase fileName = None →
         name = fileName
         ∧ table = setNew existingFileNames (toLowerCase fileName))
    ∧ (∀ counter, existingFileNames !! toLowerCase fileName = Some counter →
         ∃ index, (counter ≤ index)%N
           ∧ name = fileName +:+ "_" +:+ pretty index
           ∧ table = <[toLowerCase fileName := (index + 1)%N]> existingFileNames
           ∧ existingFileNames !! (toLowerCase fileName +:+ "_" +:+ pretty index) = None).
Proof.
  intros Hplain. unfold getUniqueFilename. rewrite inArray_own by done.
  destruct (not_inherited_ne _ Hplain) as [Hproto Hlength].
  destruct (existingFileNames !! toLowerCase fileName) as [counter|] eqn:Hlc.
  - rewrite bool_decide_eq_true_2 by eauto.
    destruct (nextFreeIndex_counting (S (size existingFileNames)) (toLowerCase fileName)
                existingFileNames counter (dom existingFileNames) Hproto)
      as [(index & Hrun & Hle & Hfree & _)|[? _]]; [| |rewrite size_dom; lia| |done].
    + unfold counterOf. by destruct (String.eqb_spec (toLowerCase fileName) "length").
    + intros j _ Hsome. by apply elem_of_dom.
    + rewrite Hrun. simpl. eexists _, _. split; [done|]. split; [done|].
      intros c [= <-]. by exists index.
  - rewrite bool_decide_eq_false_2 by (by intros [? ?]).
    eexists _, _. split; [done|]. split; [done|]. intros c [=].
Qed.

(** The name is the candidate, or the candidate followed by an underscore
    and a number. *)
Lemma getUniqueFilename_suffixed (existingFileNames : NameTable) (fileName name : string)
    (table : NameTable) :
  getUniqueFilename existingFileNames fileName = Ok (name, table) →
  suffixed fileName name.
Proof.
  unfold getUniqueFilename. destruct (inArray _ _).
  - destruct (nextFreeIndex _ _ _) as [[index t]| |]; simpl; [|done..].
    intros [= <- _]. right. by exists index.
  - intros [= <- _]. by left.
Qed.

Lemma NoteMeta_nested_ind (P : NoteMeta → Prop) :
  (∀ noteId prefix dataFileName, P (CloneMeta noteId prefix dataFileName)) →
  (∀ meta dataFileName dirFileName, P (FullMeta meta dataFileName dirFileName None)) →
  (∀ meta dataFileName dirFileName children,
     Forall P children → P (FullMeta meta dataFileName dirFileName (Some children))) →
  ∀ noteMeta, P noteMeta.
Proof.
  intros Hclone Hleaf Hdir. fix IH 1. intros [noteId prefix f | meta d r [children|]].
  - apply Hclone.
  - apply Hdir. induction children as [|child children IHc]; constructor.
    + apply IH.
    + apply IHc.
  - apply Hleaf.
Qed.

(** ** Walks *)

Lemma located_nodes (path : string) (noteMeta : NoteMeta) :
  (located path noteMeta).*2 = nodes noteMeta.
Proof.
  revert path. induction noteMeta as [| |meta d r children IH] using NoteMeta_nested_ind;
    intros path; simpl; [done..|].
  f_equal. generalize (path +:+ "/" +:+ toString r). intros dir.
  induction IH as [|child children Hchild _ IHc]; [done|].
  change (flat_map (located dir) (child :: children))
    with (located dir child ++ flat_map (located dir) children).
  change (flat_map nodes (child :: children))
    with (nodes child ++ flat_map nodes children).
  rewrite fmap_app, Hchild. f_equal. exact IHc.
Qed.

Lemma fullIds_app (w1 w2 : list NoteMeta) :
  fullIds (w1 ++ w2) = fullIds w1 ++ fullIds w2.
Proof. unfold fullIds. by rewrite List.filter_app, fmap_app. Qed.

Lemma firstThenStubs_app (known : gset string) (w1 w2 : list NoteMeta) :
  firstThenStubs known (w1 ++ w2)
  ↔ firstThenStubs known w1
    ∧ firstThenStubs (list_to_set (fullIds w1) ∪ known) w2.
Proof.
  revert known. induction w1 as [|[x pre f|meta d r ch] w1 IH]; intros known; simpl.
  - unfold fullIds. simpl. rewrite (left_id_L ∅ (∪)). tauto.
  - rewrite IH. unfold fullIds. simpl. tauto.
  - rewrite IH. unfold fullIds. simpl. fold (fullIds w1).
    replace (list_to_set (fullIds w1) ∪ ({[meta_noteId meta]} ∪ known))
      with ({[meta_noteId meta]} ∪ list_to_set (fullIds w1) ∪ known) by set_solver.
    tauto.
Qed.

Lemma storedNode_mono (repository : Repository) (r1 r2 : Registry) (n : NoteMeta) :
  r1 ⊆ r2 → storedNode repository r1 n → storedNode repository r2 n.
Proof.
  intros Hsub. destruct n as [|meta d r ch]; simpl; [done|].
  intros [Hm Hnote]. split; [|done].
  by eapply lookup_weaken.
Qed.

Lemma registers_nil (repository : Repository) (reg : Registry) :
  registers repository reg [] reg.
Proof.
  unfold registers, fullIds. simpl. split_and!; [done| |done|constructor].
  by rewrite (left_id_L ∅ (∪)).
Qed.

Lemma registers_app (repository : Repository) (r0 r1 r2 : Registry)
    (w1 w2 : list NoteMeta) :
  registers repository r0 w1 r1 →
  registers repository r1 w2 r2 →
  registers repository r0 (w1 ++ w2) r2.
Proof.
  intros (Hsub1 & Hdom1 & Hord1 & Hst1) (Hsub2 & Hdom2 & Hord2 & Hst2).
  split_and!.
  - by etrans.
  - rewrite Hdom2, Hdom1, fullIds_app, list_to_set_app_L. set_solver.
  - apply firstThenStubs_app. split; [done|]. by rewrite <-Hdom1.
  - apply Forall_app. split; [|done].
    eapply Forall_impl; [exact Hst1|]. intros n. by apply storedNode_mono.
Qed.

(** ** The manifest builder *)

Section builder.
Context `{Libraries}.
Variable repository : Repository.
Variable format : string.

Local Abbreviation getNote := (getNote repository format).
Local Abbreviation getDataFileName := (getDataFileName format).

(** The four ways through one call of [getNote]. *)
Lemma getNote_missing (fuel : nat) (branch : Branch) (table : NameTable) (reg : Registry) :
  repository !! branch_noteId branch = None →
  getNote (S fuel) branch table reg = Throw "TypeError: note is null".
Proof. intros Hnote. simpl. by rewrite Hnote. Qed.

Lemma getNote_excluded (fuel : nat) (branch : Branch) (note : Note)
    (table : NameTable) (reg : Registry) :
  repository !! branch_noteId branch = Some note →
  hasLabel note "excludeFromExport" = true →
  getNote (S fuel) branch table reg = Ok (None, table, reg).
Proof. intros Hnote Hlabel. simpl. by rewrite Hnote, Hlabel. Qed.

Lemma getNote_clone (fuel : nat) (branch : Branch) (note : Note) (meta : Meta)
    (table : NameTable) (reg : Registry) :
  repository !! branch_noteId branch = Some note →
  hasLabel note "excludeFromExport" = false →
  reg !! branch_noteId branch = Some meta →
  getNote (S fuel) branch table reg
  = '(name, table') ←
      getUniqueFilename table (sanitize (baseFileNameOf branch note +:+ ".clone"));
    Ok (Some (CloneMeta (branch_noteId branch) (branch_prefix branch) name),
        table', reg).
Proof. intros Hnote Hlabel Hreg. simpl. by rewrite Hnote, Hlabel, Hreg. Qed.

Lemma getNote_first (fuel : nat) (branch : Branch) (note : Note)
    (table : NameTable) (reg : Registry) :
  repository !! branch_noteId branch = Some note →
  hasLabel note "excludeFromExport" = false →
  reg !! branch_noteId branch = None →
  getNote (S fuel) branch table reg
  = let meta := newMeta format branch note in
    '(dataFileName, table) ←
      (if (0 <? String.length (note_content note))%nat
          || (length (getChildBranches note) =? 0)%nat
       then '(fileName, table) ←
              getDataFileName note (baseFileNameOf branch note) table;
            Ok (Some fileName, table)
       else Ok (None, table));
    if (0 <? length (getChildBranches note))%nat then
      '(dirFileName, table) ← getUniqueFilename table (baseFileNameOf branch note);
      '(children, table, reg) ←
        getChildren (getNote fuel) (getChildBranches note) [] table
          (<[branch_noteId branch := meta]> reg);
      Ok (Some (FullMeta meta dataFileName (Some dirFileName) (Some children)),
          table, reg)
    else
      Ok (Some (FullMeta meta dataFileName None None), table,
          <[branch_noteId branch := meta]> reg).
Proof. intros Hnote Hlabel Hreg. simpl. by rewrite Hnote, Hlabel, Hreg. Qed.

(** The loop over the child branches registers what its calls register. *)
Lemma getChildren_registers
    (call : Branch → NameTable → Registry → Res (option NoteMeta * NameTable * Registry)) :
  (∀ b table reg result table' reg',
     call b table reg = Ok (result, table', reg') →
     registers repository reg (from_option nodes [] result) reg') →
  ∀ childBranches children0 table reg children table' reg' reg0,
    getChildren call childBranches children0 table reg = Ok (children, table', reg') →
    registers repository reg0 (flat_map nodes children0) reg →
    registers repository reg0 (flat_map nodes children) reg'.
Proof.
  intros Hcall childBranches.
  induction childBranches as [|b bs IH];
    intros children0 table reg children table' reg' reg0 Hrun Hacc; simpl in Hrun.
  - by injection Hrun as <- <- <-.
  - destruct (call b table reg) as [[[result table1] reg1]| |] eqn:Hb; [|done..].
    simpl in Hrun. apply Hcall in Hb.
    eapply IH; [exact Hrun|].
    destruct result as [n|]; simpl in Hb.
    + rewrite flat_map_app. simpl. rewrite app_nil_r. by eapply registers_app.
    + rewrite <-(app_nil_r (flat_map nodes children0)). by eapply registers_app.
Qed.

Lemma getNote_registers (fuel : nat) :
  ∀ branch table reg result table' reg',
    getNote fuel branch table reg = Ok (result, table', reg') →
    registers repository reg (from_option nodes [] result) reg'.
Proof.
  induction fuel as [|fuel IH]; intros branch table reg result table' reg' Hrun; [done|].
  destruct (repository !! branch_noteId branch) as [note|] eqn:Hnote;
    [|by rewrite getNote_missing in Hrun].
  destruct (hasLabel note "excludeFromExport") eqn:Hlabel.
  { rewrite (getNote_excluded _ _ note) in Hrun by done.
    injection Hrun as <- <- <-. apply registers_nil. }
  destruct (reg !! branch_noteId branch) as [meta|] eqn:Hreg.
  { rewrite (getNote_clone _ _ note meta) in Hrun by done.
    destruct (getUniqueFilename _ _) as [[n t]| |]; simpl in Hrun; [|done..].
    injection Hrun as <- <- <-. simpl.
    unfold registers, fullIds. simpl.
    split_and!; [done| | |done|by repeat constructor].
    - by rewrite (left_id_L ∅ (∪)).
    - apply elem_of_dom. by rewrite Hreg. }
  rewrite (getNote_first _ _ note) in Hrun by done. cbv zeta in Hrun.
  set (meta := newMeta format branch note) in *.
  assert (Hhead : ∀ d r ch walk reg1,
            (d = None ↔ note_content note = "" ∧ getChildBranches note ≠ []) →
            (is_Some r ↔ getChildBranches note ≠ []) →
            registers repository (<[branch_noteId branch := meta]> reg) walk reg1 →
            registers repository reg (FullMeta meta d r ch :: walk) reg1).
  { intros d r ch walk reg1 Hd Hr (Hsub & Hdom & Hord & Hst). split_and!.
    - etrans; [|exact Hsub]. by apply insert_subseteq.
    - rewrite Hdom, dom_insert_L. unfold fullIds. simpl. set_solver.
    - simpl. split; [by apply not_elem_of_dom|].
      by rewrite <-(dom_insert_L reg (branch_noteId branch) meta).
    - constructor; [|done]. simpl. split.
      + eapply lookup_weaken; [|exact Hsub]. apply lookup_insert_eq.
      + by exists note. }
  destruct ((0 <? String.length (note_content note))%nat
            || (length (getChildBranches note) =? 0)%nat) eqn:Hdata.
  - destruct (getDataFileName note (baseFileNameOf branch note) table)
      as [[f table1]| |] eqn:Hf; simpl in Hrun; [|done..].
    destruct (0 <? length (getChildBranches note))%nat eqn:Hpos.
    + destruct (getUniqueFilename table1 (baseFileNameOf branch note))
        as [[dir table2]| |] eqn:Hdir; simpl in Hrun; [|done..].
      destruct (getChildren _ _ _ _ _) as [[[children table3] reg3]| |] eqn:Hch;
        [|done..].
      simpl in Hrun. injection Hrun as <- <- <-. simpl.
      apply Hhead.
      * split; [done|]. intros [Hcontent Hbs]. rewrite Hcontent in Hdata.
        by destruct (getChildBranches note).
      * split; [|by eauto]. intros _ Hbs. by rewrite Hbs in Hpos.
      * eapply (getChildren_registers _ IH); [exact Hch|]. apply registers_nil.
    + injection Hrun as <- <- <-. simpl. apply Hhead; [| |apply registers_nil].
      * split; [done|]. intros [_ Hbs]. by destruct (getChildBranches note).
      * split; [by intros [? ?]|]. intros Hbs. by destruct (getChildBranches note).
  - simpl in Hrun.
    apply orb_false_iff in Hdata as [Hcontent%Nat.ltb_ge Hlen%Nat.eqb_neq].
    assert (note_content note = "") as Hempty.
    { destruct (note_content note); [done|simpl in Hcontent; lia]. }
    assert (getChildBranches note ≠ []) as Hbs.
    { by destruct (getChildBranches note). }
    destruct (0 <? length (getChildBranches note))%nat eqn:Hpos.
    + destruct (getUniqueFilename table (baseFileNameOf branch note))
        as [[dir table2]| |] eqn:Hdir; simpl in Hrun; [|done..].
      destruct (getChildren _ _ _ _ _) as [[[children table3] reg3]| |] eqn:Hch;
        [|done..].
      simpl in Hrun. injection Hrun as <- <- <-. simpl.
      apply Hhead; [done|split; by eauto|].
      eapply (getChildren_registers _ IH); [exact Hch|]. apply registers_nil.
    + apply Nat.ltb_ge in Hpos. lia.
Qed.

End builder.

(** ** The archive emitter *)

Section emitter.
Context `{Libraries}.
Variable repository : Repository.

Local Abbreviation saveNote := (saveNote repository).
Local Abbreviation saveOne := (saveOne repository).

Lemma bind_Ok_r {A} (m : Res A) : (m ≫= Ok) = m.
Proof. by destruct m. Qed.

Lemma forEach_app {A S} (body : A → S → Res S) (l1 l2 : list A) (s : S) :
  forEach body (l1 ++ l2) s = forEach body l1 s ≫= forEach body l2.
Proof.
  revert s. induction l1 as [|a l1 IH]; intros s; simpl; [done|].
  destruct (body a s); simpl; [apply IH|done..].
Qed.

(** [saveNote] visits the nodes in the order of [located]. *)
Lemma saveNote_walk (noteMeta : NoteMeta) :
  ∀ path st, saveNote noteMeta path st = forEach saveOne (located path noteMeta) st.
Proof.
  induction noteMeta as [x pre f|meta d r|meta d r children IH]
    using NoteMeta_nested_ind; intros path [notePaths pack].
  - done.
  - simpl. by destruct (repository !! meta_noteId meta).
  - simpl. destruct (repository !! meta_noteId meta) as [note|]; [|done].
    destruct children as [|child children]; [done|].
    simpl.
    generalize (<[meta_noteId meta := path +:+ "/" +:+ toString (orElse d r)]> notePaths,
                (if truthy d
                 then pack ++ [FileEntry (path +:+ "/" +:+ toString d)
                                 (String.length (prepareContent note (meta_format meta)))
                                 (prepareContent note (meta_format meta))]
                 else pack) ++ [DirectoryEntry (path +:+ "/" +:+ toString r)]).
    generalize (path +:+ "/" +:+ toString r). intros dir st.
    change (forEach (λ childMeta, saveNote childMeta dir) (child :: children) st
            = forEach saveOne (flat_map (located dir) (child :: children)) st).
    revert st. induction IH as [|c cs Hc _ IHcs]; intros st; [done|].
    change (flat_map (located dir) (c :: cs))
      with (located dir c ++ flat_map (located dir) cs).
    rewrite forEach_app. simpl. rewrite Hc.
    destruct (forEach saveOne (located dir c) st); simpl; [apply IHcs|done..].
Qed.

(** One step records the path of a metadata object and only adds entries. *)
Lemma saveOne_inv (item : string * NoteMeta) notePaths pack notePaths' pack' :
  saveOne item (notePaths, pack) = Ok (notePaths', pack') →
  notePaths' = recordOne notePaths item ∧ ∃ added, pack' = pack ++ added.
Proof.
  destruct item as [path [x pre f|meta d r ch]]; simpl.
  - intros [= <- <-]. split; [done|]. eauto.
  - destruct (repository !! meta_noteId meta) as [note|]; [|done].
    destruct ch as [[|c cs]|]; intros [= <- <-]; (split; [done|]);
      destruct (truthy d); rewrite <-?(assoc_L (++)); eauto using app_nil_r.
Qed.

Lemma forEach_saveOne_inv (walk : list (string * NoteMeta)) :
  ∀ notePaths pack notePaths' pack',
    forEach saveOne walk (notePaths, pack) = Ok (notePaths', pack') →
    notePaths' = recordPaths walk notePaths ∧ ∃ added, pack' = pack ++ added.
Proof.
  induction walk as [|item walk IH]; intros notePaths pack notePaths' pack'; simpl.
  - intros [= <- <-]. split; [done|]. exists []. by rewrite app_nil_r.
  - destruct (saveOne item (notePaths, pack)) as [[notePaths1 pack1]| |] eqn:Hone;
      [|done..].
    simpl. intros Hrest.
    apply saveOne_inv in Hone as [-> [added1 ->]].
    apply IH in Hrest as [-> [added2 ->]].
    split; [done|]. exists (added1 ++ added2). by rewrite (assoc_L (++)).
Qed.

(** The walk goes through when the note of every metadata object is in the
    repository. *)
Lemma forEach_saveOne_ok (reg : Registry) (walk : list (string * NoteMeta)) :
  Forall (storedNode repository reg) walk.*2 →
  ∀ st, succeeded (forEach saveOne walk st) = true.
Proof.
  induction walk as [|[path n] walk IH]; intros Hstored [notePaths pack]; [done|].
  apply Forall_cons in Hstored as [Hn Hwalk].
  change (forEach saveOne ((path, n) :: walk) (notePaths, pack))
    with (saveOne (path, n) (notePaths, pack) ≫= forEach saveOne walk).
  destruct n as [x pre f|meta d r ch]; simpl.
  - by apply IH.
  - destruct Hn as (_ & note & -> & _).
    destruct ch as [[|c cs]|]; by apply IH.
Qed.

(** The entry written for the stub at position [i] names the path recorded,
    up to position [i], for its note. *)
Lemma stub_entry (walk : list (string * NoteMeta)) :
  ∀ i path x pre f notePaths pack notePaths' pack',
    forEach saveOne walk (notePaths, pack) = Ok (notePaths', pack') →
    walk !! i = Some (path, CloneMeta x pre f) →
    let content :=
      "Note is present at " +:+ toString (recordPaths (take i walk) notePaths !! x) in
    FileEntry (path +:+ "/" +:+ f) (String.length content) content ∈ pack'.
Proof.
  induction walk as [|item walk IH];
    intros i path x pre f notePaths pack notePaths' pack' Hrun Hi; [done|].
  simpl in Hrun.
  destruct (saveOne item (notePaths, pack)) as [[notePaths1 pack1]| |] eqn:Hone;
    [|done..].
  simpl in Hrun. destruct i as [|i]; simpl in Hi.
  - injection Hi as ->. simpl in Hone. injection Hone as <- <-.
    apply forEach_saveOne_inv in Hrun as [_ [added ->]].
    simpl. rewrite !elem_of_app, list_elem_of_singleton. auto.
  - apply saveOne_inv in Hone as [-> _].
    exact (IH i path x pre f _ _ _ _ Hrun Hi).
Qed.

End emitter.

(** ** Walks in which the first occurrence comes first *)

Lemma recordPaths_app (w1 w2 : list (string * NoteMeta)) (notePaths : gmap string string) :
  recordPaths (w1 ++ w2) notePaths = recordPaths w2 (recordPaths w1 notePaths).
Proof. apply foldl_app. Qed.

Lemma firstThenStubs_known (known : gset string) (walk : list NoteMeta) (n : NoteMeta) :
  firstThenStubs known walk → n ∈ walk → isClone n = false → noteIdOf n ∉ known.
Proof.
  revert known. induction walk as [|[x pre f|meta d r ch] walk IH];
    intros known Hord Hin Hfull; simpl in Hord.
  - by apply elem_of_nil in Hin.
  - destruct Hord as [_ Hord]. apply elem_of_cons in Hin as [->|Hin]; [done|].
    by apply IH.
  - destruct Hord as [Hnew Hord]. apply elem_of_cons in Hin as [->|Hin]; [done|].
    specialize (IH _ Hord Hin Hfull). set_solver.
Qed.

(** A note that is already known keeps its path through the walk. *)
Lemma recordPaths_frame (known : gset string) (walk : list (string * NoteMeta))
    (notePaths : gmap string string) (x : string) :
  firstThenStubs known walk.*2 → x ∈ known →
  recordPaths walk notePaths !! x = notePaths !! x.
Proof.
  revert known notePaths. induction walk as [|[path [y pre f|meta d r ch]] walk IH];
    intros known notePaths Hord Hx; simpl in *; [done|..].
  - destruct Hord as [_ Hord]. by rewrite (IH known).
  - destruct Hord as [Hnew Hord].
    rewrite (IH ({[meta_noteId meta]} ∪ known)); [|done|set_solver].
    unfold recordOne. simpl. apply lookup_insert_ne. set_solver.
Qed.

(** The path recorded for a note is the path of its metadata object. *)
Lemma recordPaths_first (known : gset string) (walk : list (string * NoteMeta))
    (notePaths : gmap string string) (j : nat) (path : string) (n : NoteMeta) :
  firstThenStubs known walk.*2 →
  walk !! j = Some (path, n) → isClone n = false →
  recordPaths walk notePaths !! noteIdOf n = Some (emittedPath path n).
Proof.
  revert known notePaths j. induction walk as [|[q m] walk IH];
    intros known notePaths j Hord Hj Hfull; [done|].
  destruct j as [|j]; simpl in Hj.
  - injection Hj as -> ->. destruct n as [|meta d r ch]; [done|].
    simpl in Hord. destruct Hord as [_ Hord]. simpl.
    rewrite (recordPaths_frame ({[meta_noteId meta]} ∪ known)); [|done|set_solver].
    unfold recordOne. simpl. apply lookup_insert_eq.
  - destruct m as [y pre f|meta d r ch]; simpl in Hord; destruct Hord as [_ Hord];
      simpl; by eapply IH.
Qed.

(** A stub comes after the metadata object of its note. *)
Lemma stub_after_first (known : gset string) (walk : list (string * NoteMeta))
    (i : nat) (path x : string) (pre : option string) (f : string) :
  firstThenStubs known walk.*2 →
  walk !! i = Some (path, CloneMeta x pre f) →
  x ∈ known
  ∨ ∃ j q n, j < i ∧ walk !! j = Some (q, n) ∧ isClone n = false ∧ noteIdOf n = x.
Proof.
  revert known i. induction walk as [|[q m] walk IH]; intros known i Hord Hi; [done|].
  destruct i as [|i]; simpl in Hi.
  - injection Hi as -> ->. simpl in Hord. left. by destruct Hord.
  - destruct m as [y pre' f'|meta d r ch]; simpl in Hord; destruct Hord as [Hm Hord].
    + destruct (IH _ _ Hord Hi) as [?|(j & q' & n & Hj & Hn & Hfull & Hid)]; [by left|].
      right. exists (S j), q', n. split_and!; [lia|done..].
    + destruct (IH _ _ Hord Hi) as [Hx|(j & q' & n & Hj & Hn & Hfull & Hid)].
      * apply elem_of_union in Hx as [->%elem_of_singleton|?]; [|by left].
        right. exists 0, q, (FullMeta meta d r ch). split_and!; [lia|done..].
      * right. exists (S j), q', n. split_and!; [lia|done..].
Qed.

(** A note has one metadata object. *)
Lemma first_unique (known : gset string) (walk : list (string * NoteMeta))
    (j j' : nat) (q q' : string) (n n' : NoteMeta) :
  firstThenStubs known walk.*2 →
  walk !! j = Some (q, n) → isClone n = false →
  walk !! j' = Some (q', n') → isClone n' = false →
  noteIdOf n = noteIdOf n' →
  j = j'.
Proof.
  revert known j j'. induction walk as [|[p m] walk IH];
    intros known j j' Hord Hj Hn Hj' Hn' Hid; [done|].
  assert (Hlater : ∀ k q0 n0 meta d r ch,
            m = FullMeta meta d r ch →
            walk !! k = Some (q0, n0) → isClone n0 = false →
            noteIdOf n0 ≠ meta_noteId meta).
  { intros k q0 n0 meta d r ch -> Hk Hfull. simpl in Hord. destruct Hord as [_ Hord].
    assert (n0 ∈ walk.*2) as Hin.
    { apply list_elem_of_fmap. exists (q0, n0). split; [done|].
      by eapply list_elem_of_lookup_2. }
    pose proof (firstThenStubs_known _ _ _ Hord Hin Hfull). set_solver. }
  destruct j as [|j], j' as [|j']; simpl in Hj, Hj'.
  - done.
  - injection Hj as -> ->. destruct n as [|meta d r ch]; [done|].
    exfalso. by eapply (Hlater j').
  - injection Hj' as -> ->. destruct n' as [|meta d r ch]; [done|].
    exfalso. by eapply (Hlater j).
  - f_equal. destruct m as [y pre f|meta d r ch]; simpl in Hord;
      destruct Hord as [_ Hord]; by eapply IH.
Qed.

Lemma firstThenStubs_take (known : gset string) (walk : list NoteMeta) (i : nat) :
  firstThenStubs known walk → firstThenStubs known (take i walk).
Proof.
  intros Hord. rewrite <-(take_drop i walk) in Hord.
  by apply firstThenStubs_app in Hord as [Hord _].
Qed.

(** ** The whole export *)

Section export.
Context `{Libraries}.
Variable repository : Repository.
Variable format : string.

Local Abbreviation getNote := (getNote repository format).
Local Abbreviation saveNote := (saveNote repository).

Lemma Forall_flat_map_nodes (P : NoteMeta → Prop) (children : list NoteMeta) :
  Forall P (flat_map nodes children) → Forall (λ c, Forall P (nodes c)) children.
Proof.
  induction children as [|c cs IH]; [constructor|].
  change (flat_map nodes (c :: cs)) with (nodes c ++ flat_map nodes cs).
  intros [Hc Hcs]%Forall_app. constructor; [done|]. by apply IH.
Qed.

(** The pass over the references changes neither the id nor the format of a
    stored object, so the emitter does on the manifest it is given what it
    does on the manifest as built. *)
Lemma saveNote_reload (reg : Registry) (noteMeta : NoteMeta) :
  Forall (storedNode repository reg) (nodes noteMeta) →
  ∀ path st,
    saveNote (reload (filterReferences reg) noteMeta) path st
    = saveNote noteMeta path st.
Proof.
  induction noteMeta as [x pre f|meta d r|meta d r children IH]
    using NoteMeta_nested_ind; intros Hstored path [notePaths pack]; [done|..].
  - apply Forall_cons in Hstored as [[Hmeta _] _].
    assert (filterReferences reg !! meta_noteId meta = Some (filterMeta reg meta)) as Hf.
    { unfold filterReferences. by rewrite lookup_fmap, Hmeta. }
    simpl. by rewrite !Hf.
  - simpl in Hstored. apply Forall_cons in Hstored as [[Hmeta _] Hchildren].
    apply Forall_flat_map_nodes in Hchildren.
    assert (filterReferences reg !! meta_noteId meta = Some (filterMeta reg meta)) as Hf.
    { unfold filterReferences. by rewrite lookup_fmap, Hmeta. }
    simpl. rewrite !Hf. simpl.
    destruct (repository !! meta_noteId meta) as [note|]; [|done].
    destruct children as [|child children]; [done|].
    simpl map.
    generalize (<[meta_noteId meta := path +:+ "/" +:+ toString (orElse d r)]> notePaths,
                (if truthy d
                 then pack ++ [FileEntry (path +:+ "/" +:+ toString d)
                                 (String.length (prepareContent note (meta_format meta)))
                                 (prepareContent note (meta_format meta))]
                 else pack) ++ [DirectoryEntry (path +:+ "/" +:+ toString r)]).
    generalize (path +:+ "/" +:+ toString r). intros dir st.
    change (forEach (λ childMeta, saveNote childMeta dir)
              (map (reload (filterReferences reg)) (child :: children)) st
            = forEach (λ childMeta, saveNote childMeta dir) (child :: children) st).
    revert st. induction IH as [|c cs Hc _ IHcs]; intros st; [done|].
    apply Forall_cons in Hchildren as [Hstc Hstcs].
    simpl. rewrite (Hc Hstc).
    destruct (saveNote c dir st); simpl; [by apply IHcs|done..].
Qed.

(** What a manifest built from the empty registry looks like. *)
Lemma built_walk (fuel : nat) (branch : Branch) (root : NoteMeta)
    (table : NameTable) (reg : Registry) (path : string) :
  getNote fuel branch ∅ ∅ = Ok (Some root, table, reg) →
  firstThenStubs ∅ (located path root).*2
  ∧ Forall (storedNode repository reg) (located path root).*2.
Proof.
  intros (_ & _ & Hord & Hstored)%getNote_registers. simpl in *.
  rewrite located_nodes. by rewrite dom_empty_L in Hord.
Qed.

(** The emitter goes through on a manifest built from the empty registry,
    and records the paths of [recordPaths]. *)
Lemma saveNote_built (fuel : nat) (branch : Branch) (root : NoteMeta)
    (table : NameTable) (reg : Registry) (pack0 : list PackCall) :
  getNote fuel branch ∅ ∅ = Ok (Some root, table, reg) →
  ∃ pack,
    saveNote root "" (∅, pack0) = Ok (recordPaths (located "" root) ∅, pack0 ++ pack).
Proof.
  intros [Hord Hstored]%(built_walk _ _ _ _ _ "").
  rewrite saveNote_walk.
  pose proof (forEach_saveOne_ok repository reg _ Hstored (∅, pack0)) as Hok.
  destruct (forEach _ _ _) as [[notePaths pack]| |] eqn:Hrun; [|done..].
  apply forEach_saveOne_inv in Hrun as [-> [added ->]]. by exists added.
Qed.


End export.

(** ** More fuel changes nothing *)

Section fuel.
Context `{Libraries}.
Variable repository : Repository.
Variable format : string.

Local Abbreviation getNote := (getNote repository format).

Lemma getChildren_ext
    (call1 call2 : Branch → NameTable → Registry
                   → Res (option NoteMeta * NameTable * Registry)) :
  (∀ b table reg, terminated (call1 b table reg) = true →
                  call2 b table reg = call1 b table reg) →
  ∀ childBranches children table reg,
    terminated (getChildren call1 childBranches children table reg) = true →
    getChildren call2 childBranches children table reg
    = getChildren call1 childBranches children table reg.
Proof.
  intros Hcall childBranches.
  induction childBranches as [|b bs IH]; intros children table reg Hterm; [done|].
  simpl in *.
  destruct (call1 b table reg) as [[[result table1] reg1]| |] eqn:Hb; [| |done].
  - rewrite Hcall by (by rewrite Hb). rewrite Hb. simpl in *. by apply IH.
  - rewrite Hcall by (by rewrite Hb). by rewrite Hb.
Qed.

Lemma getNote_fuel_S (fuel : nat) :
  ∀ branch table reg,
    terminated (getNote fuel branch table reg) = true →
    getNote (S fuel) branch table reg = getNote fuel branch table reg.
Proof.
  induction fuel as [|fuel IH]; intros branch table reg Hterm; [done|].
  destruct (repository !! branch_noteId branch) as [note|] eqn:Hnote;
    [|by rewrite !getNote_missing].
  destruct (hasLabel note "excludeFromExport") eqn:Hlabel.
  { by rewrite !(getNote_excluded _ _ _ _ note). }
  destruct (reg !! branch_noteId branch) as [meta|] eqn:Hreg.
  { by rewrite !(getNote_clone _ _ _ _ note meta). }
  pose proof (getChildren_ext (getNote fuel) (getNote (S fuel)) IH) as Hchildren.
  rewrite !(getNote_first _ _ _ _ note) in * by done. cbv zeta in *.
  set (children1 := getChildren (getNote (S fuel))) in *.
  set (children0 := getChildren (getNote fuel)) in *.
  destruct (if (0 <? String.length (note_content note))%nat
               || (length (getChildBranches note) =? 0)%nat
            then _ else _) as [[d table1]| |]; simpl in *; [|done..].
  destruct (0 <? length (getChildBranches note))%nat; [|done].
  destruct (getUniqueFilename table1 (baseFileNameOf branch note))
    as [[dir table2]| |]; simpl in *; [|done..].
  rewrite Hchildren; [done|].
  by destruct (children0 _ _ _ _).
Qed.

Lemma getNote_fuel_add (fuel extra : nat) (branch : Branch)
    (table : NameTable) (reg : Registry) :
  terminated (getNote fuel branch table reg) = true →
  getNote (fuel + extra) branch table reg = getNote fuel branch table reg.
Proof.
  intros Hterm. induction extra as [|extra IH]; [by rewrite Nat.add_0_r|].
  rewrite Nat.add_succ_r, getNote_fuel_S; [done|]. by rewrite IH.
Qed.

End fuel.

(** ** The manifest and the branches *)

Lemma suffixed_nonempty (candidate name : string) :
  candidate ≠ "" → suffixed candidate name → name ≠ "".
Proof.
  intros Hc [->|[index ->]]; [done|]. by destruct candidate.
Qed.

Section shape.
Context `{Libraries}.
Variable repository : Repository.
Variable format : string.

Local Abbreviation getNote := (getNote repository format).

Lemma chooseExtension_nonempty (note : Note) : chooseExtension format note ≠ "".
Proof.
  unfold chooseExtension.
  destruct (_ && _); [done|]. destruct (String.eqb _ _); [done|].
  unfold orElse. destruct (mimeTypes_extension (note_mime note)) as [[|c e]|]; done.
Qed.

Lemma withExtension_nonempty (baseFileName extension : string) :
  extension ≠ "" → withExtension baseFileName extension ≠ "".
Proof.
  intros Hext. unfold withExtension.
  destruct (endsWith (toLowerCase baseFileName) extension) eqn:Hends.
  - apply endsWith_suffix in Hends as [t Ht]. intros ->. simpl in Ht.
    destruct t; [|done]. rewrite append_nil_l in Ht. by subst.
  - by destruct baseFileName.
Qed.

(** What a call returns, from the note of its branch. *)
Lemma getNote_result (fuel : nat) (branch : Branch) (table : NameTable) (reg : Registry)
    (result : option NoteMeta) (table' : NameTable) (reg' : Registry) :
  getNote fuel branch table reg = Ok (result, table', reg') →
  ∃ note,
    repository !! branch_noteId branch = Some note
    ∧ (hasLabel note "excludeFromExport" = true → result = None)
    ∧ (hasLabel note "excludeFromExport" = false →
       ∃ noteMeta, result = Some noteMeta ∧ standsFor branch noteMeta).
Proof.
  intros Hrun. destruct fuel as [|fuel]; [done|].
  destruct (repository !! branch_noteId branch) as [note|] eqn:Hnote;
    [|by rewrite getNote_missing in Hrun].
  exists note. split; [done|].
  destruct (hasLabel note "excludeFromExport") eqn:Hlabel.
  { rewrite (getNote_excluded _ _ _ _ note) in Hrun by done.
    injection Hrun as <- _ _. by split. }
  split; [done|]. intros _.
  destruct (reg !! branch_noteId branch) as [meta|] eqn:Hreg.
  { rewrite (getNote_clone _ _ _ _ note meta) in Hrun by done.
    destruct (getUniqueFilename _ _) as [[n t]| |]; simpl in Hrun; [|done..].
    injection Hrun as <- _ _. by eexists. }
  rewrite (getNote_first _ _ _ _ note) in Hrun by done. cbv zeta in Hrun.
  destruct (if (0 <? String.length (note_content note))%nat
               || (length (getChildBranches note) =? 0)%nat
            then _ else _) as [[d table1]| |]; simpl in Hrun; [|done..].
  destruct (0 <? length (getChildBranches note))%nat.
  - destruct (getUniqueFilename table1 (baseFileNameOf branch note))
      as [[dir table2]| |]; simpl in Hrun; [|done..].
    destruct (getChildren _ _ _ _ _) as [[[children table3] reg3]| |];
      simpl in Hrun; [|done..].
    injection Hrun as <- _ _. by eexists.
  - injection Hrun as <- _ _. by eexists.
Qed.

Lemma exportable_spec (branch : Branch) (note : Note) :
  repository !! branch_noteId branch = Some note →
  exportable repository branch = negb (hasLabel note "excludeFromExport").
Proof. intros Hnote. unfold exportable. by rewrite Hnote. Qed.

(** The loop adds one child for every exportable branch, in order. *)
Lemma getChildren_built
    (call : Branch → NameTable → Registry → Res (option NoteMeta * NameTable * Registry)) :
  (∀ b table reg result table' reg',
     call b table reg = Ok (result, table', reg') →
     Forall (builtNode repository format) (from_option nodes [] result)
     ∧ ∃ note,
         repository !! branch_noteId b = Some note
         ∧ (hasLabel note "excludeFromExport" = true → result = None)
         ∧ (hasLabel note "excludeFromExport" = false →
            ∃ noteMeta, result = Some noteMeta ∧ standsFor b noteMeta)) →
  ∀ childBranches children0 table reg children table' reg',
    getChildren call childBranches children0 table reg = Ok (children, table', reg') →
    ∃ added,
      children = children0 ++ added
      ∧ Forall (builtNode repository format) (flat_map nodes added)
      ∧ Forall2 standsFor (List.filter (exportable repository) childBranches) added.
Proof.
  intros Hcall childBranches.
  induction childBranches as [|b bs IH];
    intros children0 table reg children table' reg' Hrun; simpl in Hrun.
  - injection Hrun as <- _ _. exists []. by rewrite app_nil_r.
  - destruct (call b table reg) as [[[result table1] reg1]| |] eqn:Hb; [|done..].
    simpl in Hrun. apply Hcall in Hb as (Hbuilt & note & Hnote & Hexcl & Hincl).
    apply IH in Hrun as (added & -> & Hadded & Hstand).
    simpl. rewrite (exportable_spec b note Hnote).
    destruct (hasLabel note "excludeFromExport").
    + rewrite Hexcl by done. exists added. by split_and!.
    + destruct Hincl as (n & -> & Hn); [done|].
      exists (n :: added). rewrite <-(assoc_L (++)). split_and!; [done| |].
      * change (flat_map nodes (n :: added)) with (nodes n ++ flat_map nodes added).
        by apply Forall_app.
      * by constructor.
Qed.

Lemma getNote_built (fuel : nat) :
  ∀ branch table reg result table' reg',
    getNote fuel branch table reg = Ok (result, table', reg') →
    Forall (builtNode repository format) (from_option nodes [] result).
Proof.
  induction fuel as [|fuel IH]; intros branch table reg result table' reg' Hrun; [done|].
  destruct (repository !! branch_noteId branch) as [note|] eqn:Hnote;
    [|by rewrite getNote_missing in Hrun].
  destruct (hasLabel note "excludeFromExport") eqn:Hlabel.
  { rewrite (getNote_excluded _ _ _ _ note) in Hrun by done.
    injection Hrun as <- _ _. constructor. }
  destruct (reg !! branch_noteId branch) as [meta|] eqn:Hreg.
  { rewrite (getNote_clone _ _ _ _ note meta) in Hrun by done.
    destruct (getUniqueFilename _ _) as [[n t]| |] eqn:Hn; simpl in Hrun; [|done..].
    injection Hrun as <- _ _. simpl.
    constructor; [|constructor]. exists branch, note. split_and!; [done..|].
    by eapply getUniqueFilename_suffixed. }
  rewrite (getNote_first _ _ _ _ note) in Hrun by done. cbv zeta in Hrun.
  set (meta := newMeta format branch note) in *.
  assert (Hcall : ∀ b table reg result table' reg',
     getNote fuel b table reg = Ok (result, table', reg') →
     Forall (builtNode repository format) (from_option nodes [] result)
     ∧ ∃ note,
         repository !! branch_noteId b = Some note
         ∧ (hasLabel note "excludeFromExport" = true → result = None)
         ∧ (hasLabel note "excludeFromExport" = false →
            ∃ noteMeta, result = Some noteMeta ∧ standsFor b noteMeta)).
  { intros b t0 r0 res t1 r1 Hb. split; [by eapply IH|by eapply getNote_result]. }
  assert (Hdata : ∀ f t0 t1,
            getDataFileName format note (baseFileNameOf branch note) t0 = Ok (f, t1) →
            f ≠ ""
            ∧ suffixed (withExtension (baseFileNameOf branch note)
                          (chooseExtension format note)) f).
  { intros f t0 t1 Hf. apply getUniqueFilename_suffixed in Hf.
    split; [|done]. eapply suffixed_nonempty; [|exact Hf].
    apply withExtension_nonempty, chooseExtension_nonempty. }
  destruct ((0 <? String.length (note_content note))%nat
            || (length (getChildBranches note) =? 0)%nat) eqn:Hcond.
  - destruct (getDataFileName format note (baseFileNameOf branch note) table)
      as [[f table1]| |] eqn:Hf; simpl in Hrun; [|done..].
    apply Hdata in Hf.
    assert (¬ (note_content note = "" ∧ getChildBranches note ≠ [])) as Hnot.
    { intros [Hcontent Hbs]. rewrite Hcontent in Hcond.
      by destruct (getChildBranches note). }
    destruct (0 <? length (getChildBranches note))%nat eqn:Hpos.
    + destruct (getUniqueFilename table1 (baseFileNameOf branch note))
        as [[dir table2]| |] eqn:Hdir; simpl in Hrun; [|done..].
      destruct (getChildren _ _ _ _ _) as [[[children table3] reg3]| |] eqn:Hch;
        simpl in Hrun; [|done..].
      injection Hrun as <- _ _. simpl.
      apply (getChildren_built _ Hcall) in Hch as (added & -> & Hadded & Hstand).
      assert (getChildBranches note ≠ []) as Hbs.
      { intros Hnil. by rewrite Hnil in Hpos. }
      constructor; [|done]. exists branch, note.
      split_and!; try done; try (by split; eauto).
      * intros f' [= <-]. done.
      * intros dir' [= <-]. by eapply getUniqueFilename_suffixed.
    + injection Hrun as <- _ _. simpl.
      assert (getChildBranches note = []) as Hbs.
      { by destruct (getChildBranches note). }
      constructor; [|constructor]. exists branch, note.
      split_and!; try done.
      * intros f' [= <-]. done.
      * rewrite Hbs. constructor.
  - simpl in Hrun.
    apply orb_false_iff in Hcond as [Hcontent%Nat.ltb_ge Hlen%Nat.eqb_neq].
    assert (note_content note = "") as Hempty.
    { destruct (note_content note); [done|simpl in Hcontent; lia]. }
    assert (getChildBranches note ≠ []) as Hbs.
    { by destruct (getChildBranches note). }
    destruct (0 <? length (getChildBranches note))%nat eqn:Hpos;
      [|apply Nat.ltb_ge in Hpos; lia].
    destruct (getUniqueFilename table (baseFileNameOf branch note))
      as [[dir table2]| |] eqn:Hdir; simpl in Hrun; [|done..].
    destruct (getChildren _ _ _ _ _) as [[[children table3] reg3]| |] eqn:Hch;
      simpl in Hrun; [|done..].
    injection Hrun as <- _ _. simpl.
    apply (getChildren_built _ Hcall) in Hch as (added & -> & Hadded & Hstand).
    constructor; [|done]. exists branch, note.
    split_and!; try done; try (by split; eauto).
    intros dir' [= <-]. by eapply getUniqueFilename_suffixed.
Qed.

End shape.

Section manifest.
Context `{Libraries}.
Variable repository : Repository.
Variable format : string.

Local Abbreviation getNote := (getNote repository format).

Lemma built_nodes (fuel : nat) (branch : Branch) (root : NoteMeta)
    (table : NameTable) (reg : Registry) :
  getNote fuel branch ∅ ∅ = Ok (Some root, table, reg) →
  standsFor branch root ∧ Forall (builtNode repository format) (nodes root).
Proof.
  intros Hbuild. split.
  - destruct (getNote_result repository format _ _ _ _ _ _ _ Hbuild)
      as (note & _ & Hexcl & Hincl).
    destruct (hasLabel note "excludeFromExport"); [by specialize (Hexcl eq_refl)|].
    destruct Hincl as (n & [= <-] & Hn); done.
  - exact (getNote_built repository format _ _ _ _ _ _ _ Hbuild).
Qed.

Lemma built_registry (fuel : nat) (branch : Branch) (root : NoteMeta)
    (table : NameTable) (reg : Registry) :
  getNote fuel branch ∅ ∅ = Ok (Some root, table, reg) →
  dom reg = list_to_set (fullIds (nodes root))
  ∧ firstThenStubs ∅ (nodes root)
  ∧ Forall (storedNode repository reg) (nodes root).
Proof.
  intros (_ & Hdom & Hord & Hstored)%getNote_registers. simpl in *.
  rewrite dom_empty_L in *. split_and!; [|done..].
  by rewrite Hdom, (right_id_L ∅ (∪)).
Qed.

End manifest.

Lemma firstThenStubs_ids (known : gset string) (walk : list NoteMeta) :
  firstThenStubs known walk →
  NoDup (fullIds walk)
  ∧ (∀ x, x ∈ fullIds walk → x ∉ known)
  ∧ (∀ x pre f, CloneMeta x pre f ∈ walk → x ∈ known ∨ x ∈ fullIds walk).
Proof.
  revert known. induction walk as [|[y pre' f'|meta d r ch] walk IH]; intros known Hord.
  - split_and!; [constructor|set_solver|set_solver].
  - destruct Hord as [Hy Hord]. destruct (IH _ Hord) as (Hnd & Hnew & Hstub).
    split_and!; [done..|].
    intros x pre f [[= -> _ _]|Hin]%elem_of_cons; [by left|by eapply Hstub].
  - destruct Hord as [Hnew Hord]. destruct (IH _ Hord) as (Hnd & Hnew' & Hstub).
    unfold fullIds in *. simpl. split_and!.
    + constructor; [|done]. intros Hin%Hnew'. set_solver.
    + intros x [->|Hx]%elem_of_cons; [done|]. apply Hnew' in Hx. set_solver.
    + intros x pre f [[=]|Hin]%elem_of_cons.
      destruct (Hstub x pre f Hin) as [Hx|Hx]; [|set_solver].
      apply elem_of_union in Hx as [->%elem_of_singleton|Hx]; [|by left].
      right. set_solver.
Qed.

Lemma elem_of_fullIds (walk : list NoteMeta) (x : string) :
  x ∈ fullIds walk ↔ ∃ n, n ∈ walk ∧ isClone n = false ∧ noteIdOf n = x.
Proof.
  unfold fullIds. rewrite list_elem_of_fmap. split.
  - intros (n & -> & Hn). apply list_elem_of_In, List.filter_In in Hn as [Hn Hfull].
    exists n. split_and!; [by apply list_elem_of_In| |done].
    by destruct (isClone n).
  - intros (n & Hn & Hfull & <-). exists n. split; [done|].
    apply list_elem_of_In, List.filter_In. split; [by apply list_elem_of_In|].
    by rewrite Hfull.
Qed.


(** A call that has built a manifest, taken apart. *)
Lemma built_eta (result : Res (option NoteMeta * NameTable * Registry)) :
  is_Some (builtManifest result) →
  ∃ root,
    root = default (CloneMeta "" None "") (builtManifest result)
    ∧ result = Ok (Some root, tableOf result, registryOf result).
Proof.
  destruct result as [[[[root|] table] reg]| |]; simpl; intros [? ?]; [|done..].
  by exists root.
Qed.

Lemma elem_of_nodes_self (noteMeta : NoteMeta) : noteMeta ∈ nodes noteMeta.
Proof. destruct noteMeta; apply list_elem_of_here. Qed.

(** ** Termination

    The notes of the repository that are not yet in [noteIdToMeta] bound the
    depth of the recursion: a call that goes on into the children has stored
    one more note before.  The loop of [getUniqueFilename] stops for a
    candidate that is plain. *)

Lemma plainName_spec (fileName : string) :
  plainName fileName = true ↔ toLowerCase fileName ∉ inheritedByArray.
Proof.
  unfold plainName. rewrite negb_true_iff, <-not_true_iff_false.
  by rewrite inherits_spec.
Qed.

Lemma getUniqueFilename_plain (existingFileNames : NameTable) (fileName : string) :
  plainName fileName = true →
  ∃ name table, getUniqueFilename existingFileNames fileName = Ok (name, table).
Proof.
  intros Hplain%plainName_spec.
  destruct (getUniqueFilename_spec existingFileNames fileName Hplain)
    as (name & table & Hrun & _).
  by exists name, table.
Qed.

Section termination.
Context `{Libraries}.
Variable repository : Repository.
Variable format : string.

Lemma unvisited_insert (id : string) (note : Note) (meta : Meta) (reg : Registry) :
  repository !! id = Some note →
  reg !! id = None →
  size (dom repository ∖ dom (<[id := meta]> reg)) < size (dom repository ∖ dom reg).
Proof.
  intros Hnote Hreg. apply subset_size. rewrite dom_insert_L.
  apply elem_of_dom_2 in Hnote. apply not_elem_of_dom in Hreg.
  set_solver.
Qed.

Lemma unvisited_mono (reg reg' : Registry) :
  reg ⊆ reg' →
  size (dom repository ∖ dom reg') ≤ size (dom repository ∖ dom reg).
Proof.
  intros Hsub%subseteq_dom. apply subseteq_size. set_solver.
Qed.

Lemma getChildren_runs (n : nat)
    (call : Branch → NameTable → Registry → Res (option NoteMeta * NameTable * Registry)) :
  (∀ b table reg result table' reg',
     call b table reg = Ok (result, table', reg') →
     registers repository reg (from_option nodes [] result) reg') →
  (∀ b table reg,
     size (dom repository ∖ dom reg) < n →
     plainBranch repository format b = true →
     succeeded (call b table reg) = true) →
  ∀ childBranches children0 table reg,
    size (dom repository ∖ dom reg) < n →
    Forall (λ b, plainBranch repository format b = true) childBranches →
    succeeded (getChildren call childBranches children0 table reg) = true.
Proof.
  intros Hreg Hcall childBranches.
  induction childBranches as [|b bs IH]; intros children0 table reg Hsize Hplain;
    simpl; [done|].
  apply Forall_cons in Hplain as [Hb Hbs].
  pose proof (Hcall b table reg Hsize Hb) as Hsucc.
  destruct (call b table reg) as [[[result table1] reg1]| |] eqn:Hrun; [|done..].
  simpl. apply Hreg in Hrun as [Hsub _].
  apply IH; [|done]. pose proof (unvisited_mono _ _ Hsub). lia.
Qed.

Lemma getNote_runs (fuel : nat) :
  (∀ noteId note,
     repository !! noteId = Some note →
     Forall (λ b, plainBranch repository format b = true) (getChildBranches note)) →
  ∀ branch table reg,
    size (dom repository ∖ dom reg) < fuel →
    plainBranch repository format branch = true →
    succeeded (getNote repository format fuel branch table reg) = true.
Proof.
  intros plain_children.
  induction fuel as [|fuel IH]; intros branch table reg Hsize Hplain; [lia|].
  unfold plainBranch in Hplain.
  destruct (repository !! branch_noteId branch) as [note|] eqn:Hnote; [|done].
  unfold candidateNames in Hplain. cbn [forallb] in Hplain.
  rewrite !andb_true_iff in Hplain. destruct Hplain as (Hstub & Hdata & Hdir & _).
  destruct (hasLabel note "excludeFromExport") eqn:Hlabel.
  { by rewrite (getNote_excluded _ _ _ _ note). }
  destruct (reg !! branch_noteId branch) as [meta|] eqn:Hreg.
  { rewrite (getNote_clone _ _ _ _ note meta) by done.
    by destruct (getUniqueFilename_plain table _ Hstub) as (name & table' & ->). }
  rewrite (getNote_first _ _ _ _ note) by done. cbv zeta.
  set (meta := newMeta format branch note).
  assert (Hchildren : ∀ table1,
    succeeded (getChildren (getNote repository format fuel) (getChildBranches note) []
                 table1 (<[branch_noteId branch := meta]> reg)) = true).
  { intros table1.
    apply (getChildren_runs fuel _ (getNote_registers repository format fuel) IH).
    - pose proof (unvisited_insert _ _ meta _ Hnote Hreg). lia.
    - by eapply plain_children. }
  assert (Hrest : ∀ dataFileName table1,
    succeeded
      (if (0 <? length (getChildBranches note))%nat then
         '(dirFileName, table) ← getUniqueFilename table1 (baseFileNameOf branch note);
         '(children, table, reg) ←
           getChildren (getNote repository format fuel) (getChildBranches note) [] table
             (<[branch_noteId branch := meta]> reg);
         Ok (Some (FullMeta meta dataFileName (Some dirFileName) (Some children)),
             table, reg)
       else
         Ok (Some (FullMeta meta dataFileName None None), table1,
             <[branch_noteId branch := meta]> reg)) = true).
  { intros d table1.
    destruct (0 <? length (getChildBranches note))%nat; [|done].
    destruct (getUniqueFilename_plain table1 _ Hdir) as (dir & table2 & ->). simpl.
    pose proof (Hchildren table2) as Hsucc.
    by destruct (getChildren _ _ _ _ _) as [[[children table3] reg3]| |]. }
  destruct ((0 <? String.length (note_content note))%nat
            || (length (getChildBranches note) =? 0)%nat).
  - unfold getDataFileName.
    destruct (getUniqueFilename_plain table _ Hdata) as (f & table1 & ->). simpl.
    apply Hrest.
  - simpl. apply Hrest.
Qed.

End termination.

(** * The claims of the specification *)

(** ** Names within a directory *)

(** C1, as the code has it.  The specification gives every directory a fresh
    table of sibling names.  [getNote] creates [childExistingNames] but goes
    on into the child branches with the table of the parent (tar.js:130-133):
    in the repository with a note "x" that has content and one child, also
    titled "x", the parent takes "x.md" and "x" in the directory that holds
    it, and the child, alone in the directory "/x", is named "x.md_1"
    because "x.md" is taken one level up. *)
Theorem child_name_collides_with_parent_name `{Libraries} (fuel : nat) :
  layout <$> builtManifest
    (getNote nestedRepository "markdown" (2 + fuel) (branchTo "top") ∅ ∅)
  = Some [("", "top", ["x.md"; "x"]); ("/x", "sub", ["x.md_1"])].
Proof.
  rewrite (getNote_fuel_add _ _ 2 fuel) by (by vm_compute).
  by vm_compute.
Qed.

(** The name [getUniqueFilename] makes up on a collision is not entered into
    the table, so a later candidate that is this very name is taken as new. *)
Example getUniqueFilename_gives_a_name_twice :
  getUniqueFilename ∅ "a" = Ok ("a", {["a" := 1%N]})
  ∧ getUniqueFilename {["a" := 1%N]} "a" = Ok ("a_1", {["a" := 2%N]})
  ∧ getUniqueFilename {["a" := 2%N]} "a_1"
    = Ok ("a_1", <["a_1" := 1%N]> {["a" := 2%N]}).
Proof. split_and!; by vm_compute. Qed.

(** C2, as the code has it.  The specification wants the names within one
    directory to differ, whatever the titles.  In the repository with two
    leaves titled "a" and a note titled "a.md_1" that has a child, all three
    under one parent, the second leaf gets the data file name "a.md_1" and
    the third note the directory name "a.md_1": two children of the directory
    "/r" with the same name. *)
Theorem two_children_get_the_same_name `{Libraries} (fuel : nat) :
  layout <$> builtManifest
    (getNote collidingRepository "markdown" (3 + fuel) (branchTo "root") ∅ ∅)
  = Some [("", "root", ["r"]);
          ("/r", "n1", ["a.md"]);
          ("/r", "n2", ["a.md_1"]);
          ("/r", "n3", ["a.md_1"]);
          ("/r/a.md_1", "n4", ["z.md"])].
Proof.
  rewrite (getNote_fuel_add _ _ 3 fuel) by (by vm_compute).
  by vm_compute.
Qed.

(** The end-to-end scenario as the specification tells it has the child "a"
    named "a_1.md".  The data file names of the two children of the root are
    "A.md" and "a.md_1". *)
Lemma scenario_second_child_is_a_md_1 :
  (λ root, dataFileNameOf <$> childrenOf root) <$> builtManifest
    (getNote (H := sampleLibraries) scenarioRepository "markdown" 2 (branchTo "root") ∅ ∅)
  = Some [Some "A.md"; Some "a.md_1"]
  ∧ "a.md_1" ≠ "a_1.md".
Proof. split; [by vm_compute|done]. Qed.

(** C3, amended.  In the markdown export of the text note "Root" with empty
    content and the text children "A" and "a", the root gets the directory
    name "Root" and no data file name, "A" gets "A.md", and "a", which
    collides with "A.md" when lower-cased, gets "a.md_1": the suffix goes
    after the whole candidate, extension included. *)
Theorem scenario_names `{Libraries} (fuel : nat) :
  (λ root, (dirFileNameOf root, dataFileNameOf root,
            (λ child, (noteIdOf child, dataFileNameOf child)) <$> childrenOf root))
    <$> builtManifest
          (getNote scenarioRepository "markdown" (2 + fuel) (branchTo "root") ∅ ∅)
  = Some (Some "Root", None, [("n1", Some "A.md"); ("n2", Some "a.md_1")]).
Proof.
  rewrite (getNote_fuel_add _ _ 2 fuel) by (by vm_compute).
  by vm_compute.
Qed.

(** C4, as the code has it.  The specification has the directory name made
    from the sanitized base name.  [getNote] sanitizes the name of a clone
    stub (tar.js:76) but passes the base name of a metadata object to
    [getUniqueFilename] as it is (tar.js:127): the note titled "a/b" with a
    child gets the directory name "a/b", whatever [sanitize] does. *)
Theorem directory_name_is_not_sanitized `{Libraries} (fuel : nat) :
  dirFileNameOf <$> builtManifest
    (getNote unsafeTitleRepository "markdown" (2 + fuel) (branchTo "root") ∅ ∅)
  = Some (Some "a/b").
Proof.
  rewrite (getNote_fuel_add _ _ 2 fuel) by (by vm_compute).
  by vm_compute.
Qed.

Example sample_sanitize_removes_the_slash : removeIllegal "a/b" = "ab".
Proof. by vm_compute. Qed.

(** ** The export of an excluded root *)

(** C6.  When the note of the root branch carries the exclusion label, the
    export returns without throwing: the response gets [sendStatus(400)] and
    nothing else (no header, no archive), and no entry has been written to
    the archive, the manifest entry included. *)
Theorem excluded_root_yields_empty_export `{Libraries}
    (repository : Repository) (format : string) (fuel : nat)
    (branch : Branch) (note : Note) :
  repository !! branch_noteId branch = Some note →
  hasLabel note "excludeFromExport" = true →
  getNote repository format (S fuel) branch ∅ ∅ = Ok (None, ∅, ∅)
  ∧ exportToTar repository format (S fuel) branch = Ok ([], [SendStatus 400]).
Proof.
  intros Hnote Hlabel.
  assert (getNote repository format (S fuel) branch ∅ ∅ = Ok (None, ∅, ∅)) as Hbuild.
  { by apply (getNote_excluded _ _ _ _ note). }
  split; [done|]. unfold exportToTar. by rewrite Hbuild.
Qed.

Lemma excluded_root_yields_empty_export_witness :
  exportToTar (H := sampleLibraries) excludedRepository "html" 1 (branchTo "root")
  = Ok ([], [SendStatus 400]).
Proof.
  refine (proj2 (excluded_root_yields_empty_export (H := sampleLibraries)
                   excludedRepository "html" 0 (branchTo "root")
                   (excluded (textNote "Root" "body" [branchTo "n1"])) _ _));
    by vm_compute.
Defined.

(** ** The extension of a data file name *)





(** ** The reference filter *)

(** C5, as the code has it.  The specification has the pass over
    [noteIdToMeta] leave no link and no relation to a note outside the
    export, and so does the comment of tar.js:197.  The pass tests
    [in noteIdToMeta] (tar.js:198-199), which also finds the names the
    object inherits.  The note "n1", exported alone, has links to "gone" and
    to "constructor" and relations to "gone" and to "toString": "n1" is the
    one key of the map, the references to "gone" are dropped, and the
    manifest that is written out still has the link to "constructor" and the
    relation to "toString". *)
Theorem reference_to_inherited_name_survives_the_filter `{Libraries} (fuel : nat) :
  exportedIds danglingRepository "markdown" (1 + fuel) (branchTo "n1") = ["n1"]
  ∧ referencesOf <$> builtManifest
      (getNote danglingRepository "markdown" (1 + fuel) (branchTo "n1") ∅ ∅)
    = Some (["gone"; "constructor"], ["gone"; "toString"])
  ∧ referencesOf <$> shippedManifest danglingRepository "markdown" (1 + fuel)
                       (branchTo "n1")
    = Some (["constructor"], ["toString"]).
Proof.
  unfold exportedIds, shippedManifest.
  rewrite (getNote_fuel_add _ _ 1 fuel) by (vm_compute; reflexivity).
  split_and!; vm_compute; reflexivity.
Qed.

(** ** Termination of the walk over the branches *)

Example cyclicRepository_closed : closedRepository cyclicRepository.
Proof. unfold closedRepository. apply (bool_decide_unpack _). by vm_compute. Qed.

(** The walk over the cyclic repository: "A", then "B" under it, then the
    stub for "A" under "B". *)
Example cyclic_layout (fuel : nat) :
  (λ root, (λ item, (item.1, noteIdOf item.2, isClone item.2)) <$> located "" root)
    <$> builtManifest
          (getNote (H := sampleLibraries) cyclicRepository "html" (3 + fuel)
             (branchTo "a") ∅ ∅)
  = Some [("", "a", false); ("/A", "b", false); ("/A/B", "a", true)].
Proof.
  rewrite (getNote_fuel_add _ _ 3 fuel) by (by vm_compute).
  by vm_compute.
Qed.

(** C8, as the code has it.  The specification has the walk end on every
    finite branch graph.  A note that is entered again gives a stub
    ([cyclic_layout]), but the loop of [getUniqueFilename] (tar.js:28-33)
    need not end.  In the repository with a directory titled "__proto___0",
    in it a directory titled "__proto__", in it a leaf, the first directory
    enters "__proto___0" into the table.  For the second one "__proto__" is
    in the table, because every object inherits it; its counter reads 0 and
    the write to it is lost, so every round of the loop tries "__proto___0",
    which is taken: the loop has not stopped after any number of rounds, and
    neither [getNote] nor [exportToTar] returns, whatever the fuel. *)
Theorem directory_named_proto_never_returns `{Libraries} (fuel : nat) :
  closedRepository protoRepository
  ∧ getUniqueFilename ∅ "__proto___0" = Ok ("__proto___0", {["__proto___0" := 1%N]})
  ∧ postIncrement {["__proto___0" := 1%N]} "__proto__"
    = Ok (Num 0, {["__proto___0" := 1%N]})
  ∧ inArray {["__proto___0" := 1%N]} ("__proto__" +:+ "_" +:+ numberToString (Num 0))
    = true
  ∧ nextFreeIndex fuel "__proto__" {["__proto___0" := 1%N]} = Diverge
  ∧ getUniqueFilename {["__proto___0" := 1%N]} "__proto__" = Diverge
  ∧ getNote protoRepository "markdown" fuel (branchTo "top") ∅ ∅ = Diverge
  ∧ exportToTar protoRepository "markdown" fuel (branchTo "top") = Diverge.
Proof.
  assert (getNote protoRepository "markdown" fuel (branchTo "top") ∅ ∅ = Diverge)
    as Hbuild.
  { destruct fuel as [|[|fuel]]; vm_compute; reflexivity. }
  split_and!.
  - unfold closedRepository. apply (bool_decide_unpack _). by vm_compute.
  - vm_compute; reflexivity.
  - reflexivity.
  - vm_compute; reflexivity.
  - destruct fuel as [|fuel]; [reflexivity|].
    by rewrite (nextFreeIndex_stationary _ _ _ (Num 0)).
  - vm_compute; reflexivity.
  - exact Hbuild.
  - unfold exportToTar. by rewrite Hbuild.
Qed.

(** ** Clones *)

Section clones.
Context `{Libraries}.
Variable repository : Repository.
Variable format : string.

Local Abbreviation getNote := (getNote repository format).
Local Abbreviation saveNote := (saveNote repository).


End clones.



(** The export of the repository with "X" under "P1" and under "P2". *)
Example clone_export :
  exportToTar (H := sampleLibraries) cloneRepository "markdown" 3 (branchTo "root")
  = Ok ([FileEntry "!!!meta.json" 12 "{version: 1}";
         DirectoryEntry "/R";
         DirectoryEntry "/R/P1";
         FileEntry "/R/P1/X.md" 4 "text";
         DirectoryEntry "/R/P2";
         FileEntry "/R/P2/X.clone" 29 "Note is present at /R/P1/X.md";
         Finalize],
        [SetHeader "Content-Disposition" ("file; filename=" +:+ dquote +:+ "R.tar" +:+ dquote);
         SetHeader "Content-Type" "application/tar";
         Pipe [FileEntry "!!!meta.json" 12 "{version: 1}";
               DirectoryEntry "/R";
               DirectoryEntry "/R/P1";
               FileEntry "/R/P1/X.md" 4 "text";
               DirectoryEntry "/R/P2";
               FileEntry "/R/P2/X.clone" 29 "Note is present at /R/P1/X.md";
               Finalize]]).
Proof. by vm_compute. Qed.



(** ** The path recorded for a note *)

(** C10.  On a manifest built for a root the emitter goes through, on the
    manifest as built and, with the same outcome, on the manifest after the
    pass over the references.  For every metadata object held by [path] the
    path it has recorded in the end is [path/dataFileName] when there is a
    data file name and [path/dirFileName] when there is none.  There is none exactly when the
    note has children and no content, and then there is a directory name.
    Every clone stub of the note gets an entry whose content names this
    path. *)
Theorem recorded_path_is_directory_without_data_file `{Libraries}
    (repository : Repository) (format : string) (fuel : nat) (branch : Branch)
    (root : NoteMeta) (table : NameTable) (reg : Registry) (pack0 : list PackCall) :
  getNote repository format fuel branch ∅ ∅ = Ok (Some root, table, reg) →
  ∃ notePaths pack,
    saveNote repository root "" (∅, pack0) = Ok (notePaths, pack)
    ∧ saveNote repository (reload (filterReferences reg) root) "" (∅, pack0)
      = Ok (notePaths, pack)
    ∧ ∀ j path meta dataFileName dirFileName children,
        located "" root !! j
          = Some (path, FullMeta meta dataFileName dirFileName children) →
        notePaths !! meta_noteId meta
          = Some (path +:+ "/" +:+ toString (orElse dataFileName dirFileName))
        ∧ (truthy dataFileName = true →
           notePaths !! meta_noteId meta
             = Some (path +:+ "/" +:+ toString dataFileName))
        ∧ (dataFileName = None →
           ∃ dir note,
             dirFileName = Some dir
             ∧ repository !! meta_noteId meta = Some note
             ∧ note_content note = ""
             ∧ getChildBranches note ≠ []
             ∧ notePaths !! meta_noteId meta = Some (path +:+ "/" +:+ dir))
        ∧ (∀ i path' prefix' name',
             located "" root !! i = Some (path', CloneMeta (meta_noteId meta) prefix' name') →
             let content :=
               "Note is present at " +:+ path +:+ "/"
                 +:+ toString (orElse dataFileName dirFileName) in
             FileEntry (path' +:+ "/" +:+ name') (String.length content) content ∈ pack).
Proof.
  intros Hbuild.
  destruct (saveNote_built repository format fuel branch root table reg pack0 Hbuild)
    as [pack Hsave].
  destruct (built_walk repository format fuel branch root table reg "" Hbuild)
    as [Hord Hstored].
  eexists _, _. split; [exact Hsave|]. split.
  { rewrite saveNote_reload; [exact Hsave|]. by rewrite <-(located_nodes ""). }
  intros j path meta d r ch Hj.
  assert (recordPaths (located "" root) ∅ !! meta_noteId meta
          = Some (path +:+ "/" +:+ toString (orElse d r))) as Hpath.
  { exact (recordPaths_first ∅ _ ∅ j path (FullMeta meta d r ch) Hord Hj eq_refl). }
  split_and!; [done|..].
  - intros Hd. rewrite Hpath. unfold orElse. by rewrite Hd.
  - intros ->.
    assert (storedNode repository reg (FullMeta meta None r ch)) as Hnode.
    { eapply (Forall_lookup_1 _ _ j); [exact Hstored|].
      by rewrite list_lookup_fmap, Hj. }
    destruct Hnode as (_ & note & Hnote & Hdata & Hdir).
    destruct Hdata as [[Hcontent Hbs] _]; [done|].
    destruct Hdir as [_ [dir ->]]; [done|].
    exists dir, note. by split_and!.
  - intros i path' pre f Hi. cbv zeta.
    destruct (stub_after_first ∅ _ i path' _ pre f Hord Hi)
      as [Hx|(j' & q & n & Hj' & Hn & Hfull & Hid)]; [set_solver|].
    assert (j' = j) as ->.
    { by eapply (first_unique ∅ (located "" root) j' j). }
    rewrite Hj in Hn. injection Hn as <- <-.
    rewrite saveNote_walk in Hsave.
    pose proof (stub_entry repository _ i path' _ pre f _ _ _ _ Hsave Hi) as Hentry.
    cbv zeta in Hentry.
    rewrite (recordPaths_first ∅ (take i (located "" root)) ∅ j path
               (FullMeta meta d r ch)) in Hentry.
    + exact Hentry.
    + rewrite fmap_take. by apply firstThenStubs_take.
    + by rewrite lookup_take_lt.
    + done.
Qed.

(** In the cyclic repository the note "A" has a child and no content: the
    path recorded for it is the path of its directory, "/A", and this is the
    path the stub under "B" names. *)
Lemma recorded_path_is_directory_without_data_file_witness :
  ∃ root table reg,
    getNote (H := sampleLibraries) cyclicRepository "html" 3 (branchTo "a") ∅ ∅
      = Ok (Some root, table, reg)
    ∧ dataFileNameOf root = None
    ∧ dirFileNameOf root = Some "A"
    ∧ ∃ notePaths pack,
        saveNote (H := sampleLibraries) cyclicRepository root "" (∅, [])
          = Ok (notePaths, pack)
        ∧ notePaths !! "a" = Some "/A"
        ∧ FileEntry "/A/B/A.clone" 21 "Note is present at /A" ∈ pack.
Proof.
  set (result := getNote (H := sampleLibraries) cyclicRepository "html" 3
                   (branchTo "a") ∅ ∅).
  destruct (built_eta result) as (root & Hroot & Hbuild);
    [apply (bool_decide_unpack _); by vm_compute|].
  exists root, (tableOf result), (registryOf result). split; [exact Hbuild|].
  destruct (recorded_path_is_directory_without_data_file (H := sampleLibraries)
              cyclicRepository "html" 3 (branchTo "a") root _ _ [] Hbuild)
    as (notePaths & pack & Hsave & _ & Hpaths).
  clear Hbuild. subst root.
  split; [vm_compute; reflexivity|]. split; [vm_compute; reflexivity|].
  exists notePaths, pack. split; [exact Hsave|]. clear Hsave.
  destruct (Hpaths 0 ""
              (newMeta "html" (branchTo "a") (textNote "A" "" [branchTo "b"]))
              None (Some "A")
              (Some [FullMeta
                       (newMeta "html" (branchTo "b") (textNote "B" "" [branchTo "a"]))
                       None (Some "B") (Some [CloneMeta "a" None "A.clone"])]))
    as (Hpath & _ & _ & Hstub); [vm_compute; reflexivity|].
  split; [exact Hpath|].
  apply (Hstub 2 "/A/B" None "A.clone"). vm_compute; reflexivity.
Defined.

(** * Further properties *)

(** ** The pass over the references *)

Lemma filterReferences_lookup (noteIdToMeta : Registry) (noteId : string) :
  filterReferences noteIdToMeta !! noteId
  = filterMeta noteIdToMeta <$> noteIdToMeta !! noteId.
Proof. unfold filterReferences. apply lookup_fmap. Qed.

Lemma filterReferences_keys (noteIdToMeta : Registry) (noteId : string) :
  is_Some (filterReferences noteIdToMeta !! noteId) ↔ is_Some (noteIdToMeta !! noteId).
Proof. rewrite filterReferences_lookup. apply fmap_is_Some. Qed.


Lemma inObject_filterReferences (noteIdToMeta : Registry) (key : string) :
  inObject (filterReferences noteIdToMeta) key = inObject noteIdToMeta key.
Proof.
  unfold inObject. f_equal. apply bool_decide_ext, filterReferences_keys.
Qed.




Lemma filter_filter {A} (f : A → bool) (l : list A) :
  List.filter f (List.filter f l) = List.filter f l.
Proof.
  induction l as [|x l IH]; [done|]. simpl.
  destruct (f x) eqn:Hx; simpl; [by rewrite Hx, IH|done].
Qed.

Lemma Meta_eq (m1 m2 : Meta) :
  meta_noteId m1 = meta_noteId m2 → meta_title m1 = meta_title m2 →
  meta_prefix m1 = meta_prefix m2 → meta_isExpanded m1 = meta_isExpanded m2 →
  meta_type m1 = meta_type m2 → meta_mime m1 = meta_mime m2 →
  meta_attributes m1 = meta_attributes m2 → meta_links m1 = meta_links m2 →
  meta_format m1 = meta_format m2 → m1 = m2.
Proof. destruct m1, m2; simpl; congruence. Qed.



(** X2.  Running the pass over the references a second time changes
    nothing. *)
Theorem filterReferences_idempotent (noteIdToMeta : Registry) :
  filterReferences (filterReferences noteIdToMeta) = filterReferences noteIdToMeta.
Proof.
  apply map_eq. intros noteId. rewrite !filterReferences_lookup.
  destruct (noteIdToMeta !! noteId) as [meta|]; [|done]. simpl. f_equal.
  apply Meta_eq; simpl; try done.
  - rewrite (List.filter_ext (keepAttribute (filterReferences noteIdToMeta))
               (keepAttribute noteIdToMeta)).
    + apply filter_filter.
    + intros attr. unfold keepAttribute. by rewrite inObject_filterReferences.
  - rewrite (List.filter_ext (keepLink (filterReferences noteIdToMeta))
               (keepLink noteIdToMeta)).
    + apply filter_filter.
    + intros link. unfold keepLink. by rewrite inObject_filterReferences.
Qed.

(** ** The manifest and the repository *)

(** X3.  The manifest built for a root branch mirrors the branches.  The
    root stands for the root branch.  Every node is for a note of the
    repository that does not carry the exclusion label.  A metadata object
    has the title, type, mime type, attributes and links of its note, and a
    format exactly when the note is a text note; it has children exactly
    when its note has child branches, one child for every child branch to a
    note that is not excluded, in the order of the branches, each with the
    id of the note and the prefix of its branch. *)
Theorem manifest_mirrors_the_branches `{Libraries}
    (repository : Repository) (format : string) (fuel : nat) (branch : Branch)
    (root : NoteMeta) (table : NameTable) (reg : Registry) :
  getNote repository format fuel branch ∅ ∅ = Ok (Some root, table, reg) →
  standsFor branch root
  ∧ ∀ noteMeta, noteMeta ∈ nodes root →
      ∃ note,
        repository !! noteIdOf noteMeta = Some note
        ∧ hasLabel note "excludeFromExport" = false
        ∧ match noteMeta with
          | CloneMeta _ _ _ => True
          | FullMeta meta _ _ children =>
              meta_title meta = note_title note
              ∧ meta_type meta = note_type note
              ∧ meta_mime meta = note_mime note
              ∧ meta_attributes meta = getOwnedAttributes note
              ∧ meta_links meta = getLinks note
              ∧ meta_format meta
                = (if String.eqb (note_type note) "text" then Some format else None)
              ∧ (is_Some children ↔ getChildBranches note ≠ [])
              ∧ Forall2 standsFor
                  (List.filter (exportable repository) (getChildBranches note))
                  (default [] children)
          end.
Proof.
  intros [Hroot Hnodes]%built_nodes. split; [done|].
  intros noteMeta Hin.
  rewrite Forall_forall in Hnodes.
  destruct (Hnodes noteMeta Hin) as (b & note & _ & Hnote & Hlabel & Hshape).
  exists note. split_and!; [done..|].
  destruct noteMeta as [|meta d r ch]; [done|].
  destruct Hshape as (-> & _ & _ & _ & _ & Hch & Hchildren). by split_and!.
Qed.

Lemma manifest_mirrors_the_branches_witness :
  ∃ root table reg,
    getNote (H := sampleLibraries) excludedChildRepository "html" 2 (branchTo "root") ∅ ∅
      = Ok (Some root, table, reg)
    ∧ standsFor (branchTo "root") root
    ∧ noteIdOf <$> childrenOf root = ["n1"; "n3"].
Proof.
  set (result := getNote (H := sampleLibraries) excludedChildRepository "html" 2
                   (branchTo "root") ∅ ∅).
  destruct (built_eta result) as (root & Hroot & Hbuild);
    [apply (bool_decide_unpack _); by vm_compute|].
  exists root, (tableOf result), (registryOf result). split; [exact Hbuild|].
  split.
  - exact (proj1 (manifest_mirrors_the_branches (H := sampleLibraries)
                    excludedChildRepository "html" 2 (branchTo "root") root _ _ Hbuild)).
  - subst root. vm_compute; reflexivity.
Defined.

(** X4.  The names in a built manifest come from the prefix and the title.
    A clone stub is named after the sanitized base name followed by
    ".clone".  A metadata object has no data file name exactly when its note
    has children and no content; a data file name is never empty and is
    made from the base name with the extension chosen for the note; there is
    a directory name exactly when the note has child branches, and it is
    made from the base name as it is, not sanitized.  "Made from" is: the
    candidate itself, or the candidate followed by an underscore and a
    number. *)
Theorem manifest_names_come_from_prefix_and_title `{Libraries}
    (repository : Repository) (format : string) (fuel : nat) (branch : Branch)
    (root : NoteMeta) (table : NameTable) (reg : Registry) :
  getNote repository format fuel branch ∅ ∅ = Ok (Some root, table, reg) →
  ∀ noteMeta, noteMeta ∈ nodes root →
    ∃ branch' note,
      standsFor branch' noteMeta
      ∧ repository !! noteIdOf noteMeta = Some note
      ∧ match noteMeta with
        | CloneMeta _ _ dataFileName =>
            suffixed (sanitize (baseFileNameOf branch' note +:+ ".clone")) dataFileName
        | FullMeta _ dataFileName dirFileName _ =>
            (dataFileName = None
             ↔ note_content note = "" ∧ getChildBranches note ≠ [])
            ∧ (∀ f, dataFileName = Some f →
                 f ≠ ""
                 ∧ suffixed (withExtension (baseFileNameOf branch' note)
                               (chooseExtension format note)) f)
            ∧ (is_Some dirFileName ↔ getChildBranches note ≠ [])
            ∧ (∀ dir, dirFileName = Some dir →
                 suffixed (baseFileNameOf branch' note) dir)
        end.
Proof.
  intros [_ Hnodes]%built_nodes noteMeta Hin.
  rewrite Forall_forall in Hnodes.
  destruct (Hnodes noteMeta Hin) as (b & note & Hb & Hnote & _ & Hshape).
  exists b, note. split_and!; [done..|].
  destruct noteMeta as [|meta d r ch]; [done|].
  destruct Hshape as (_ & Hd & Hf & Hr & Hdir & _). by split_and!.
Qed.

Lemma manifest_names_come_from_prefix_and_title_witness :
  ∃ root table reg,
    getNote (H := sampleLibraries) cloneRepository "markdown" 3 (branchTo "root") ∅ ∅
      = Ok (Some root, table, reg)
    ∧ dataFileNameOf root = None
    ∧ dirFileNameOf root = Some "R"
    ∧ ∃ branch' note,
        standsFor branch' root
        ∧ cloneRepository !! noteIdOf root = Some note
        ∧ suffixed (baseFileNameOf branch' note) "R".
Proof.
  set (result := getNote (H := sampleLibraries) cloneRepository "markdown" 3
                   (branchTo "root") ∅ ∅).
  destruct (built_eta result) as (root & Hroot & Hbuild);
    [apply (bool_decide_unpack _); by vm_compute|].
  exists root, (tableOf result), (registryOf result). split; [exact Hbuild|].
  assert (dirFileNameOf root = Some "R") as Hdir by (subst root; vm_compute; reflexivity).
  split; [subst root; vm_compute; reflexivity|]. split; [exact Hdir|].
  destruct (manifest_names_come_from_prefix_and_title (H := sampleLibraries)
              cloneRepository "markdown" 3 (branchTo "root") root _ _ Hbuild root)
    as (b & note & Hb & Hnote & Hshape).
  { apply elem_of_nodes_self. }
  exists b, note. split; [exact Hb|]. split; [exact Hnote|].
  destruct root as [|meta d r ch]; [done|].
  destruct Hshape as (_ & _ & _ & Hname). by apply Hname.
Defined.

(** X5.  In a built manifest every note has at most one metadata object;
    [noteIdToMeta] holds exactly the metadata objects of the manifest, each
    under its id; and every clone stub is for a note that has its metadata
    object in the manifest. *)
Theorem registry_holds_the_metadata_objects `{Libraries}
    (repository : Repository) (format : string) (fuel : nat) (branch : Branch)
    (root : NoteMeta) (table : NameTable) (reg : Registry) :
  getNote repository format fuel branch ∅ ∅ = Ok (Some root, table, reg) →
  NoDup (fullIds (nodes root))
  ∧ (∀ noteId, is_Some (reg !! noteId)
       ↔ ∃ noteMeta, noteMeta ∈ nodes root ∧ isClone noteMeta = false
                     ∧ noteIdOf noteMeta = noteId)
  ∧ (∀ meta d r ch, FullMeta meta d r ch ∈ nodes root →
       reg !! meta_noteId meta = Some meta)
  ∧ (∀ noteId prefix name, CloneMeta noteId prefix name ∈ nodes root →
       ∃ noteMeta, noteMeta ∈ nodes root ∧ isClone noteMeta = false
                   ∧ noteIdOf noteMeta = noteId).
Proof.
  intros (Hdom & Hord & Hstored)%built_registry.
  destruct (firstThenStubs_ids ∅ (nodes root) Hord) as (Hnd & _ & Hstub).
  split_and!; [done| | |].
  - intros noteId. rewrite <-elem_of_dom, Hdom, elem_of_list_to_set.
    apply elem_of_fullIds.
  - intros meta d r ch Hin. rewrite Forall_forall in Hstored.
    by destruct (Hstored _ Hin) as [Hmeta _].
  - intros noteId pre f Hin. apply elem_of_fullIds.
    destruct (Hstub noteId pre f Hin) as [?|?]; [set_solver|done].
Qed.

Lemma registry_holds_the_metadata_objects_witness :
  ∃ root table reg,
    getNote (H := sampleLibraries) cloneRepository "markdown" 3 (branchTo "root") ∅ ∅
      = Ok (Some root, table, reg)
    ∧ NoDup (fullIds (nodes root))
    ∧ fullIds (nodes root) = ["root"; "p1"; "x"; "p2"].
Proof.
  set (result := getNote (H := sampleLibraries) cloneRepository "markdown" 3
                   (branchTo "root") ∅ ∅).
  destruct (built_eta result) as (root & Hroot & Hbuild);
    [apply (bool_decide_unpack _); by vm_compute|].
  exists root, (tableOf result), (registryOf result). split; [exact Hbuild|].
  split.
  - exact (proj1 (registry_holds_the_metadata_objects (H := sampleLibraries)
                    cloneRepository "markdown" 3 (branchTo "root") root _ _ Hbuild)).
  - subst root. vm_compute; reflexivity.
Defined.



(** ** The archive *)

Lemma prefix_slash (path name : string) :
  archivePath path → String.prefix "/" (path +:+ "/" +:+ name) = true.
Proof.
  assert (∀ s, String.prefix "" s = true) as Hnil by (by intros []).
  assert (∀ c s, String.prefix "/" (String c s)
                 = if ascii_dec "/" c then String.prefix "" s else false) as Hcons
    by reflexivity.
  intros [->|Hpath].
  - rewrite append_nil_l. change ("/" +:+ name) with (String "/" name).
    rewrite Hcons. destruct (ascii_dec "/" "/"); [apply Hnil|done].
  - destruct path as [|c path]; [done|]. rewrite append_cons. rewrite Hcons in *.
    destruct (ascii_dec "/" c); [apply Hnil|done].
Qed.

Lemma located_archivePath (noteMeta : NoteMeta) :
  ∀ path, archivePath path →
    Forall (λ item, archivePath item.1) (located path noteMeta).
Proof.
  induction noteMeta as [x pre f|meta d r|meta d r children IH]
    using NoteMeta_nested_ind; intros path Hpath; simpl.
  - constructor; [done|constructor].
  - constructor; [done|constructor].
  - constructor; [done|].
    assert (archivePath (path +:+ "/" +:+ toString r)) as Hdir.
    { right. by apply prefix_slash. }
    revert Hdir. generalize (path +:+ "/" +:+ toString r). intros dir Hdir.
    induction IH as [|c cs Hc _ IHcs]; [constructor|].
    change (flat_map (located dir) (c :: cs))
      with (located dir c ++ flat_map (located dir) cs).
    apply Forall_app. split; [by apply Hc|exact IHcs].
Qed.

(** Every node but the root is held by the directory of a metadata object
    that has children. *)
Lemma located_parent (noteMeta : NoteMeta) :
  ∀ path0 path n,
    (path, n) ∈ located path0 noteMeta →
    (path, n) = (path0, noteMeta)
    ∨ ∃ q meta d r c cs,
        (q, FullMeta meta d r (Some (c :: cs))) ∈ located path0 noteMeta
        ∧ path = q +:+ "/" +:+ toString r.
Proof.
  induction noteMeta as [x pre f|meta d r|meta d r children IH]
    using NoteMeta_nested_ind; intros path0 path n Hin; simpl in Hin.
  - apply list_elem_of_singleton in Hin. by left.
  - apply list_elem_of_singleton in Hin. by left.
  - apply elem_of_cons in Hin as [Hin|Hin]; [by left|]. right.
    assert (∃ c, c ∈ children
                 ∧ (path, n) ∈ located (path0 +:+ "/" +:+ toString r) c)
      as (c & Hc & Hinc).
    { clear IH. induction children as [|c cs IHcs]; [by apply elem_of_nil in Hin|].
      change (flat_map (located (path0 +:+ "/" +:+ toString r)) (c :: cs))
        with (located (path0 +:+ "/" +:+ toString r) c
              ++ flat_map (located (path0 +:+ "/" +:+ toString r)) cs) in Hin.
      apply elem_of_app in Hin as [Hin|Hin]; [exists c; set_solver|].
      destruct (IHcs Hin) as (c' & Hc' & Hin'). exists c'. set_solver. }
    assert (∀ item, item ∈ located (path0 +:+ "/" +:+ toString r) c →
              item ∈ located path0 (FullMeta meta d r (Some children))) as Hsub.
    { intros item Hitem. simpl. apply elem_of_cons. right.
      clear IH Hin. induction children as [|c' cs IHcs]; [by apply elem_of_nil in Hc|].
      change (flat_map (located (path0 +:+ "/" +:+ toString r)) (c' :: cs))
        with (located (path0 +:+ "/" +:+ toString r) c'
              ++ flat_map (located (path0 +:+ "/" +:+ toString r)) cs).
      apply elem_of_app. apply elem_of_cons in Hc as [->|Hc]; [by left|].
      right. by apply IHcs. }
    rewrite Forall_forall in IH.
    destruct (IH c Hc _ _ _ Hinc) as [[= -> ->]|(q & m' & d' & r' & c' & cs' & Hq & ->)].
    + destruct children as [|c0 cs0]; [by apply elem_of_nil in Hc|].
      exists path0, meta, d, r, c0, cs0. split; [|done]. simpl. set_solver.
    + exists q, m', d', r', c', cs'. split; [by apply Hsub|done].
Qed.

Section archive.
Context `{Libraries}.
Variable repository : Repository.
Variable format : string.

Local Abbreviation getNote := (getNote repository format).
Local Abbreviation saveNote := (saveNote repository).
Local Abbreviation saveOne := (saveOne repository).

Lemma saveOne_emitted (item : string * NoteMeta) notePaths pack notePaths' pack' :
  archivePath item.1 →
  saveOne item (notePaths, pack) = Ok (notePaths', pack') →
  ∃ added, pack' = pack ++ added ∧ Forall emitted added.
Proof.
  destruct item as [path [x pre f|meta d r ch]]; simpl; intros Hpath.
  - intros [= <- <-]. eexists. split; [done|].
    constructor; [|constructor]. split; [done|]. by apply prefix_slash.
  - destruct (repository !! meta_noteId meta) as [note|]; [|done].
    assert (∃ added, (if truthy d
                      then pack ++ [FileEntry (path +:+ "/" +:+ toString d)
                                      (String.length (prepareContent note (meta_format meta)))
                                      (prepareContent note (meta_format meta))]
                      else pack) = pack ++ added ∧ Forall emitted added)
      as (added & -> & Hadded).
    { destruct (truthy d).
      - eexists. split; [done|]. constructor; [|constructor].
        split; [done|]. by apply prefix_slash.
      - exists []. by rewrite app_nil_r. }
    destruct ch as [[|c cs]|]; intros [= <- <-].
    + by exists added.
    + exists (added ++ [DirectoryEntry (path +:+ "/" +:+ toString r)]).
      rewrite (assoc_L (++)). split; [done|].
      apply Forall_app. split; [done|].
      constructor; [|constructor]. by apply prefix_slash.
    + by exists added.
Qed.

Lemma forEach_saveOne_emitted (walk : list (string * NoteMeta)) :
  Forall (λ item, archivePath item.1) walk →
  ∀ notePaths pack notePaths' pack',
    forEach saveOne walk (notePaths, pack) = Ok (notePaths', pack') →
    ∃ added, pack' = pack ++ added ∧ Forall emitted added.
Proof.
  induction walk as [|item walk IH]; intros Hpaths notePaths pack notePaths' pack'; simpl.
  - intros [= <- <-]. exists []. by rewrite app_nil_r.
  - apply Forall_cons in Hpaths as [Hitem Hwalk].
    destruct (saveOne item (notePaths, pack)) as [[notePaths1 pack1]| |] eqn:Hone;
      [|done..].
    simpl. intros Hrest.
    apply saveOne_emitted in Hone as (added1 & -> & Hadded1); [|done].
    apply IH in Hrest as (added2 & -> & Hadded2); [|done].
    exists (added1 ++ added2). rewrite (assoc_L (++)). split; [done|].
    by apply Forall_app.
Qed.

(** The entries of a metadata object are in what the walk has written. *)
Lemma forEach_saveOne_entries (walk : list (string * NoteMeta)) :
  ∀ notePaths pack notePaths' pack' path meta d r ch note,
    forEach saveOne walk (notePaths, pack) = Ok (notePaths', pack') →
    (path, FullMeta meta d r ch) ∈ walk →
    repository !! meta_noteId meta = Some note →
    (truthy d = true →
     FileEntry (path +:+ "/" +:+ toString d)
       (String.length (prepareContent note (meta_format meta)))
       (prepareContent note (meta_format meta)) ∈ pack')
    ∧ (∀ c cs, ch = Some (c :: cs) →
         DirectoryEntry (path +:+ "/" +:+ toString r) ∈ pack').
Proof.
  induction walk as [|item walk IH];
    intros notePaths pack notePaths' pack' path meta d r ch note Hrun Hin Hnote;
    [by apply elem_of_nil in Hin|].
  simpl in Hrun.
  destruct (saveOne item (notePaths, pack)) as [[notePaths1 pack1]| |] eqn:Hone;
    [|done..].
  simpl in Hrun. apply elem_of_cons in Hin as [<-|Hin]; [|by eapply IH].
  apply forEach_saveOne_inv in Hrun as [_ [added ->]].
  simpl in Hone. rewrite Hnote in Hone. split.
  - intros Hd. rewrite Hd in Hone.
    destruct ch as [[|c cs]|]; injection Hone as _ <-;
      rewrite !elem_of_app, ?list_elem_of_singleton; auto.
  - intros c cs ->. injection Hone as _ <-.
    rewrite !elem_of_app, ?list_elem_of_singleton; auto.
Qed.

(** The export of a root that is not excluded, with the name of the archive
    file spelled out. *)
Lemma exportToTar_archive (fuel : nat) (branch : Branch) (root : NoteMeta)
    (table : NameTable) (reg : Registry) (note : Note) :
  getNote fuel branch ∅ ∅ = Ok (Some root, table, reg) →
  repository !! branch_noteId branch = Some note →
  ∃ metaFileJson entries,
    saveNote root "" (∅, [FileEntry "!!!meta.json" (String.length metaFileJson) metaFileJson])
      = Ok (recordPaths (located "" root) ∅,
            FileEntry "!!!meta.json" (String.length metaFileJson) metaFileJson :: entries)
    ∧ Forall emitted entries
    ∧ exportToTar repository format fuel branch
      = Ok (FileEntry "!!!meta.json" (String.length metaFileJson) metaFileJson
              :: entries ++ [Finalize],
            [SetHeader "Content-Disposition"
               ("file; filename=" +:+ dquote
                +:+ sanitize ((if truthy (branch_prefix branch)
                               then toString (branch_prefix branch) +:+ " - "
                               else "") +:+ note_title note)
                +:+ ".tar" +:+ dquote);
             SetHeader "Content-Type" "application/tar";
             Pipe (FileEntry "!!!meta.json" (String.length metaFileJson) metaFileJson
                     :: entries ++ [Finalize])]).
Proof.
  intros Hbuild Hnote.
  set (metaFileJson := JSON_stringify
         {| version := 1; files := [Some (reload (filterReferences reg) root)] |}).
  destruct (saveNote_built repository format fuel branch root table reg
              [FileEntry "!!!meta.json" (String.length metaFileJson) metaFileJson] Hbuild)
    as [pack Hsave].
  exists metaFileJson, pack. split; [exact Hsave|].
  split.
  { pose proof Hsave as Hwalk. rewrite saveNote_walk in Hwalk.
    apply forEach_saveOne_emitted in Hwalk as (added & Heq & Hadded).
    - apply app_inv_head in Heq. by subst.
    - apply located_archivePath. by left. }
  unfold exportToTar. rewrite Hbuild. simpl.
  destruct (built_walk _ _ _ _ _ _ _ "" Hbuild) as [_ Hstored].
  rewrite located_nodes in Hstored.
  rewrite (saveNote_reload _ reg root Hstored).
  fold metaFileJson. rewrite Hsave. simpl. by rewrite Hnote.
Qed.

End archive.

Lemma plainRepository_spec `{Libraries} (repository : Repository) (format : string)
    (branch : Branch) :
  plainRepository repository format branch = true →
  plainBranch repository format branch = true
  ∧ ∀ noteId note,
      repository !! noteId = Some note →
      Forall (λ b, plainBranch repository format b = true) (getChildBranches note).
Proof.
  unfold plainRepository. intros [Hroot Hall]%andb_true_iff. split; [done|].
  intros noteId note Hnote. rewrite forallb_forall in Hall.
  specialize (Hall (noteId, note)). rewrite <-list_elem_of_In in Hall.
  rewrite elem_of_map_to_list in Hall. specialize (Hall Hnote). simpl in Hall.
  rewrite forallb_forall in Hall. apply Forall_forall. intros b Hb.
  apply Hall. by apply list_elem_of_In.
Qed.

(** X7.  With more fuel than the repository has notes, when the root branch
    and every child branch lead to a note of the repository and no candidate
    for a name is, lower-cased, "length" or the name of a member an array
    inherits, the export returns, without an error.  When the note of the
    root carries the exclusion label the response gets the status 400 and
    the archive nothing.  Otherwise the archive starts with the manifest
    entry "!!!meta.json", whose size is the length of the manifest text,
    goes on with entries written for notes, each a file entry with the
    length of its content as its size or a directory entry, under a name
    that starts with a slash (so none of them is named as the manifest
    entry), and ends with its finalization; the response gets the two
    headers, with the sanitized prefix and title in the file name, and this
    archive. *)
Theorem export_returns_400_or_an_archive `{Libraries}
    (repository : Repository) (format : string) (fuel : nat)
    (branch : Branch) (note : Note) :
  size repository < fuel →
  plainRepository repository format branch = true →
  repository !! branch_noteId branch = Some note →
  if hasLabel note "excludeFromExport"
  then exportToTar repository format fuel branch = Ok ([], [SendStatus 400])
  else
    ∃ metaFileJson entries,
      exportToTar repository format fuel branch
      = Ok (FileEntry "!!!meta.json" (String.length metaFileJson) metaFileJson
              :: entries ++ [Finalize],
            [SetHeader "Content-Disposition"
               ("file; filename=" +:+ dquote
                +:+ sanitize ((if truthy (branch_prefix branch)
                               then toString (branch_prefix branch) +:+ " - "
                               else "") +:+ note_title note)
                +:+ ".tar" +:+ dquote);
             SetHeader "Content-Type" "application/tar";
             Pipe (FileEntry "!!!meta.json" (String.length metaFileJson) metaFileJson
                     :: entries ++ [Finalize])])
      ∧ Forall emitted entries.
Proof.
  intros Hfuel [Hroot Hchildren]%plainRepository_spec Hnote.
  assert (size (dom repository ∖ dom (∅ : Registry)) < fuel) as Hsize.
  { rewrite dom_empty_L, difference_empty_L, size_dom. done. }
  pose proof (getNote_runs repository format fuel Hchildren branch ∅ ∅ Hsize Hroot)
    as Hsucc.
  destruct (getNote repository format fuel branch ∅ ∅)
    as [[[result table] reg]| |] eqn:Hbuild; [|done..].
  destruct (getNote_result repository format _ _ _ _ _ _ _ Hbuild)
    as (note' & Hnote' & Hexcl & Hincl).
  rewrite Hnote in Hnote'. injection Hnote' as <-.
  destruct (hasLabel note "excludeFromExport").
  - rewrite Hexcl in Hbuild by done. unfold exportToTar. by rewrite Hbuild.
  - destruct Hincl as (root & -> & _); [done|].
    destruct (exportToTar_archive repository format fuel branch root table reg note
                Hbuild Hnote) as (json & entries & _ & Hemitted & Hexport).
    by exists json, entries.
Qed.

Lemma export_returns_400_or_an_archive_witness :
  ∃ metaFileJson entries,
    exportToTar (H := sampleLibraries) cloneRepository "markdown" 5 (branchTo "root")
    = Ok (FileEntry "!!!meta.json" (String.length metaFileJson) metaFileJson
            :: entries ++ [Finalize],
          [SetHeader "Content-Disposition"
             ("file; filename=" +:+ dquote +:+ "R" +:+ ".tar" +:+ dquote);
           SetHeader "Content-Type" "application/tar";
           Pipe (FileEntry "!!!meta.json" (String.length metaFileJson) metaFileJson
                   :: entries ++ [Finalize])])
    ∧ Forall emitted entries.
Proof.
  apply (export_returns_400_or_an_archive (H := sampleLibraries) cloneRepository
           "markdown" 5 (branchTo "root") (textNote "R" "" [branchTo "p1"; branchTo "p2"])).
  - vm_compute. lia.
  - vm_compute; reflexivity.
  - reflexivity.
Defined.

(** X8.  The export of a built manifest has, for every metadata object with
    a data file name, a file entry under the path of its directory and that
    name, with the content of the note as [prepareContent] makes it for the
    format of the object, which is the content as it is when the note is not
    a text note; and it has a directory entry for the directory that holds
    any node other than the root. *)
Theorem notes_and_directories_are_in_the_archive `{Libraries}
    (repository : Repository) (format : string) (fuel : nat) (branch : Branch)
    (root : NoteMeta) (table : NameTable) (reg : Registry) :
  getNote repository format fuel branch ∅ ∅ = Ok (Some root, table, reg) →
  ∃ archive response,
    exportToTar repository format fuel branch = Ok (archive, response)
    ∧ (∀ path meta f r ch,
         (path, FullMeta meta (Some f) r ch) ∈ located "" root →
         ∃ note,
           repository !! meta_noteId meta = Some note
           ∧ FileEntry (path +:+ "/" +:+ f)
               (String.length (prepareContent note (meta_format meta)))
               (prepareContent note (meta_format meta)) ∈ archive
           ∧ (note_type note ≠ "text" →
              prepareContent note (meta_format meta) = note_content note))
    ∧ (∀ path noteMeta,
         (path, noteMeta) ∈ located "" root → path ≠ "" →
         DirectoryEntry path ∈ archive).
Proof.
  intros Hbuild.
  assert (is_Some (repository !! branch_noteId branch)) as [rootNote HrootNote].
  { destruct (getNote_result repository format _ _ _ _ _ _ _ Hbuild) as (n & Hn & _).
    by eauto. }
  destruct (exportToTar_archive repository format fuel branch root table reg rootNote
              Hbuild HrootNote) as (json & entries & Hsave & _ & Hexport).
  destruct (built_nodes repository format fuel branch root table reg Hbuild)
    as [_ Hnodes].
  rewrite Forall_forall in Hnodes.
  rewrite saveNote_walk in Hsave.
  assert (Hnode : ∀ path n, (path, n) ∈ located "" root → n ∈ nodes root).
  { intros path n Hin. rewrite <-(located_nodes "").
    apply list_elem_of_fmap. by exists (path, n). }
  assert (Harchive : ∀ entry,
            entry ∈ FileEntry "!!!meta.json" (String.length json) json :: entries →
            entry ∈ FileEntry "!!!meta.json" (String.length json) json
                    :: entries ++ [Finalize]).
  { intros entry. rewrite !elem_of_cons, elem_of_app. tauto. }
  eexists _, _. split; [exact Hexport|]. split.
  - intros path meta f r ch Hin.
    destruct (Hnodes _ (Hnode _ _ Hin)) as (b & note & _ & Hnote & _ & Hshape).
    destruct Hshape as (-> & _ & Hf & _).
    destruct (Hf f eq_refl) as [Hne _].
    exists note. split; [done|].
    destruct (forEach_saveOne_entries repository _ _ _ _ _ _ _ _ _ _ note Hsave Hin Hnote)
      as [Hfile _].
    split.
    + apply Harchive, Hfile. by destruct f.
    + intros Htype. simpl. apply String.eqb_neq in Htype. by rewrite Htype.
  - intros path n Hin Hpath.
    destruct (located_parent root "" path n Hin)
      as [[= -> _]|(q & meta & d & r & c & cs & Hq & ->)]; [done|].
    destruct (Hnodes _ (Hnode _ _ Hq)) as (b & note & _ & Hnote & _).
    destruct (forEach_saveOne_entries repository _ _ _ _ _ _ _ _ _ _ note Hsave Hq Hnote)
      as [_ Hdir].
    apply Harchive. by eapply Hdir.
Qed.

Lemma notes_and_directories_are_in_the_archive_witness :
  ∃ root table reg,
    getNote (H := sampleLibraries) cloneRepository "markdown" 3 (branchTo "root") ∅ ∅
      = Ok (Some root, table, reg)
    ∧ ∃ archive response,
        exportToTar (H := sampleLibraries) cloneRepository "markdown" 3 (branchTo "root")
          = Ok (archive, response)
        ∧ DirectoryEntry "/R/P1" ∈ archive.
Proof.
  set (result := getNote (H := sampleLibraries) cloneRepository "markdown" 3
                   (branchTo "root") ∅ ∅).
  destruct (built_eta result) as (root & Hroot & Hbuild);
    [apply (bool_decide_unpack _); by vm_compute|].
  exists root, (tableOf result), (registryOf result). split; [exact Hbuild|].
  destruct (notes_and_directories_are_in_the_archive (H := sampleLibraries)
              cloneRepository "markdown" 3 (branchTo "root") root _ _ Hbuild)
    as (archive & response & Hexport & _ & Hdirs).
  exists archive, response. split; [exact Hexport|].
  apply (Hdirs "/R/P1" (FullMeta (newMeta "markdown" (branchTo "x") (textNote "X" "text" []))
                          (Some "X.md") None None)); [|done].
  apply (list_elem_of_lookup_2 _ 2). subst root. vm_compute; reflexivity.
Defined.

(** ** A note whose children are all excluded *)

Lemma getChildren_all_excluded `{Libraries} (repository : Repository) (format : string)
    (fuel : nat) (childBranches : list Branch) (children : list NoteMeta)
    (table : NameTable) (reg : Registry) :
  Forall (λ b, ∃ child, repository !! branch_noteId b = Some child
                        ∧ hasLabel child "excludeFromExport" = true) childBranches →
  getChildren (getNote repository format (S fuel)) childBranches children table reg
  = Ok (children, table, reg).
Proof.
  revert children. induction childBranches as [|b bs IH]; intros children Hall; [done|].
  apply Forall_cons in Hall as [(child & Hchild & Hlabel) Hall].
  cbn [getChildren]. rewrite (getNote_excluded _ _ _ _ child) by done. by apply IH.
Qed.

(** From the empty table every candidate gets a name. *)
Lemma getUniqueFilename_empty (fileName : string) :
  ∃ name table, getUniqueFilename ∅ fileName = Ok (name, table).
Proof.
  unfold getUniqueFilename. destruct (inArray ∅ (toLowerCase fileName)); [|by eauto].
  change (size (∅ : NameTable)) with 0. rewrite nextFreeIndex_S.
  assert (∃ index table,
            postIncrement ∅ (toLowerCase fileName) = Ok (index, table)
            ∧ (table = ∅ ∨ table = {["length" := 1%N]})) as (index & table & -> & Htable).
  { unfold postIncrement.
    destruct (String.eqb _ "__proto__"); [by eauto|].
    destruct (String.eqb _ "length"); [by eauto|].
    rewrite lookup_empty. by eauto. }
  cbn [mbind Res_bind].
  assert (toLowerCase fileName +:+ "_" +:+ numberToString index ∉ inheritedByArray)
    as Hnew.
  { destruct index as [index|].
    - apply newName_not_inherited.
    - apply (not_inherited (λ key, endsWith key "_NaN")); [by vm_compute|].
      apply endsWith_app_r, endsWith_refl. }
  rewrite inArray_own by done.
  rewrite bool_decide_eq_false_2.
  - cbn [mbind Res_bind]. by eauto.
  - destruct Htable as [->| ->]; [by rewrite lookup_empty; intros [? ?]|].
    rewrite lookup_singleton_ne; [by intros [? ?]|].
    intros Heq. apply Hnew. rewrite <-Heq. by apply inherits_spec.
Qed.

(** X9.  A note that is not excluded, has no content and has child
    branches, all of them to excluded notes, gets a directory name in the
    manifest, made from its base name, and no data file name and no
    children; its export succeeds, and the archive has the manifest entry
    and nothing else: no file and no directory is written for the note. *)
Theorem note_with_only_excluded_children_leaves_no_entry `{Libraries}
    (repository : Repository) (format : string) (fuel : nat)
    (branch : Branch) (note : Note) :
  repository !! branch_noteId branch = Some note →
  hasLabel note "excludeFromExport" = false →
  note_content note = "" →
  getChildBranches note ≠ [] →
  Forall (λ b, ∃ child, repository !! branch_noteId b = Some child
                        ∧ hasLabel child "excludeFromExport" = true)
    (getChildBranches note) →
  ∃ dirFileName,
    suffixed (baseFileNameOf branch note) dirFileName
    ∧ builtManifest (getNote repository format (2 + fuel) branch ∅ ∅)
      = Some (FullMeta (newMeta format branch note) None (Some dirFileName) (Some []))
    ∧ ∃ metaFileJson response,
        exportToTar repository format (2 + fuel) branch
        = Ok ([FileEntry "!!!meta.json" (String.length metaFileJson) metaFileJson;
               Finalize],
              response).
Proof.
  intros Hnote Hlabel Hcontent Hbs Hchildren.
  destruct (getUniqueFilename_empty (baseFileNameOf branch note))
    as (dir & table & Hdir).
  assert (getNote repository format (2 + fuel) branch ∅ ∅
          = Ok (Some (FullMeta (newMeta format branch note) None (Some dir) (Some [])),
                table,
                {[branch_noteId branch := newMeta format branch note]})) as Hbuild.
  { change (2 + fuel) with (S (S fuel)).
    rewrite (getNote_first _ _ _ _ note) by done. cbv zeta.
    rewrite Hcontent.
    destruct (getChildBranches note) as [|b bs] eqn:Hbranches; [done|].
    cbn [String.length length Nat.ltb Nat.leb Nat.eqb orb].
    cbn [mbind Res_bind]. rewrite Hdir. cbn [mbind Res_bind].
    rewrite getChildren_all_excluded by done. cbn [mbind Res_bind].
    by rewrite !insert_empty. }
  exists dir. split; [by eapply getUniqueFilename_suffixed|].
  split; [by rewrite Hbuild|].
  destruct (exportToTar_archive repository format (2 + fuel) branch _ _ _ note
              Hbuild Hnote) as (json & entries & Hsave & _ & Hexport).
  exists json. eexists. rewrite Hexport.
  simpl in Hsave. rewrite Hnote in Hsave. by simplify_eq.
Qed.

Lemma note_with_only_excluded_children_leaves_no_entry_witness :
  ∃ metaFileJson response,
    exportToTar (H := sampleLibraries) onlyExcludedChildRepository "html" 2
      (branchTo "root")
    = Ok ([FileEntry "!!!meta.json" (String.length metaFileJson) metaFileJson;
           Finalize],
          response).
Proof.
  destruct (note_with_only_excluded_children_leaves_no_entry
              (H := sampleLibraries) onlyExcludedChildRepository "html" 0
              (branchTo "root") (textNote "Root" "" [branchTo "n1"])
              eq_refl eq_refl eq_refl) as (dir & _ & _ & Hexport).
  - done.
  - constructor; [|constructor].
    exists (excluded (textNote "A" "1" [])). by split.
  - exact Hexport.
Defined.

(** ** The archive, entry by entry *)

Section entries.
Context `{Libraries}.
Variable repository : Repository.

(** One step adds the entries of its node, read with the paths on record
    when the step is made. *)
Lemma saveOne_entries (reg : Registry) (item : string * NoteMeta)
    (notePaths : gmap string string) (pack : list PackCall) :
  storedNode repository reg item.2 →
  saveOne repository item (notePaths, pack)
  = Ok (recordOne notePaths item, pack ++ entriesOf repository notePaths item).
Proof.
  destruct item as [path [x pre f|meta d r ch]]; [done|].
  intros (_ & note & Hnote & _). unfold saveOne, entriesOf. cbn [fst snd].
  rewrite Hnote. cbv zeta.
  destruct ch as [[|c cs]|]; destruct (truthy d);
    by rewrite ?app_nil_r, <-?(assoc_L (++)).
Qed.

Lemma entriesOf_clone (paths1 paths2 : gmap string string) (path x : string)
    (pre : option string) (f : string) :
  paths1 !! x = paths2 !! x →
  entriesOf repository paths1 (path, CloneMeta x pre f)
  = entriesOf repository paths2 (path, CloneMeta x pre f).
Proof. intros Heq. unfold entriesOf. cbn [fst snd]. by rewrite Heq. Qed.

Lemma forEach_saveOne_flat_map (reg : Registry) (walk : list (string * NoteMeta)) :
  ∀ notePaths pack,
    firstThenStubs (dom notePaths) walk.*2 →
    Forall (storedNode repository reg) walk.*2 →
    forEach (saveOne repository) walk (notePaths, pack)
    = Ok (recordPaths walk notePaths,
          pack ++ flat_map (entriesOf repository (recordPaths walk notePaths)) walk).
Proof.
  induction walk as [|[path n] walk IH]; intros notePaths pack Hord Hstored.
  - simpl. by rewrite app_nil_r.
  - apply Forall_cons in Hstored as [Hn Hwalk].
    change (forEach (saveOne repository) ((path, n) :: walk) (notePaths, pack))
      with (saveOne repository (path, n) (notePaths, pack)
            ≫= forEach (saveOne repository) walk).
    change (flat_map (entriesOf repository (recordPaths ((path, n) :: walk) notePaths))
              ((path, n) :: walk))
      with (entriesOf repository (recordPaths ((path, n) :: walk) notePaths) (path, n)
            ++ flat_map (entriesOf repository (recordPaths ((path, n) :: walk) notePaths))
                 walk).
    change (recordPaths ((path, n) :: walk) notePaths)
      with (recordPaths walk (recordOne notePaths (path, n))).
    rewrite (saveOne_entries reg) by done. cbn [mbind Res_bind].
    destruct n as [x pre f|meta d r ch].
    + destruct Hord as [Hx Hord].
      change (recordOne notePaths (path, CloneMeta x pre f)) with notePaths.
      rewrite IH by done.
      rewrite (entriesOf_clone (recordPaths walk notePaths) notePaths)
        by (by apply (recordPaths_frame (dom notePaths))).
      by rewrite <-(assoc_L (++)).
    + destruct Hord as [Hnew Hord].
      rewrite IH; [|by unfold recordOne; cbn [fst snd isClone noteIdOf];
                       rewrite dom_insert_L|done].
      by rewrite <-(assoc_L (++)).
Qed.

End entries.

(** X10.  The archive of a built manifest, entry by entry: the manifest
    entry, then the entries of the nodes in the order of the depth-first
    walk, then the finalization.  A stub gives the placeholder that names the
    path recorded for its note; a metadata object gives its data file, when
    it has a data file name, and then its directory, when it has a child.
    So the directory of a note comes before everything written for its
    children, and the paths the stubs name are those on record when the walk
    is over. *)
Theorem archive_follows_the_walk `{Libraries}
    (repository : Repository) (format : string) (fuel : nat) (branch : Branch)
    (root : NoteMeta) (table : NameTable) (reg : Registry) :
  getNote repository format fuel branch ∅ ∅ = Ok (Some root, table, reg) →
  ∃ metaFileJson response,
    exportToTar repository format fuel branch
    = Ok (FileEntry "!!!meta.json" (String.length metaFileJson) metaFileJson
            :: flat_map (entriesOf repository (recordPaths (located "" root) ∅))
                 (located "" root)
            ++ [Finalize],
          response).
Proof.
  intros Hbuild.
  assert (is_Some (repository !! branch_noteId branch)) as [rootNote HrootNote].
  { destruct (getNote_result repository format _ _ _ _ _ _ _ Hbuild) as (n & Hn & _).
    by eauto. }
  destruct (exportToTar_archive repository format fuel branch root table reg rootNote
              Hbuild HrootNote) as (json & entries & Hsave & _ & Hexport).
  destruct (built_walk repository format fuel branch root table reg "" Hbuild)
    as [Hord Hstored].
  rewrite saveNote_walk in Hsave.
  rewrite (forEach_saveOne_flat_map repository reg) in Hsave;
    [|by rewrite dom_empty_L|done].
  exists json. eexists. rewrite Hexport. by simplify_eq.
Qed.

Lemma archive_follows_the_walk_witness :
  ∃ root table reg,
    getNote (H := sampleLibraries) cloneRepository "markdown" 3 (branchTo "root") ∅ ∅
      = Ok (Some root, table, reg)
    ∧ flat_map (entriesOf (H := sampleLibraries) cloneRepository
                  (recordPaths (located "" root) ∅)) (located "" root)
      = [DirectoryEntry "/R";
         DirectoryEntry "/R/P1";
         FileEntry "/R/P1/X.md" 4 "text";
         DirectoryEntry "/R/P2";
         FileEntry "/R/P2/X.clone" 29 "Note is present at /R/P1/X.md"]
    ∧ ∃ metaFileJson response,
        exportToTar (H := sampleLibraries) cloneRepository "markdown" 3 (branchTo "root")
        = Ok (FileEntry "!!!meta.json" (String.length metaFileJson) metaFileJson
                :: flat_map (entriesOf (H := sampleLibraries) cloneRepository
                               (recordPaths (located "" root) ∅)) (located "" root)
                ++ [Finalize],
              response).
Proof.
  set (result := getNote (H := sampleLibraries) cloneRepository "markdown" 3
                   (branchTo "root") ∅ ∅).
  destruct (built_eta result) as (root & Hroot & Hbuild);
    [apply (bool_decide_unpack _); by vm_compute|].
  exists root, (tableOf result), (registryOf result). split; [exact Hbuild|].
  split; [subst root; vm_compute; reflexivity|].
  exact (archive_follows_the_walk (H := sampleLibraries)
           cloneRepository "markdown" 3 (branchTo "root") root _ _ Hbuild).
Defined.

(** ** One call of getUniqueFilename *)

Lemma lowerCodeUnit_digit (c : ascii) : isDigit c = true → lowerCodeUnit c = c.
Proof.
  unfold isDigit, lowerCodeUnit. intros [H1 H2]%andb_true_iff.
  apply Nat.leb_le in H1, H2.
  destruct (65 <=? nat_of_ascii c)%nat eqn:H3; [apply Nat.leb_le in H3; lia|].
  destruct (192 <=? nat_of_ascii c)%nat eqn:H4; [apply Nat.leb_le in H4; lia|].
  done.
Qed.

Lemma toLowerCase_digits (s : string) : isDigits s = true → toLowerCase s = s.
Proof.
  induction s as [|c s IH]; [done|]. simpl.
  intros [Hc Hs]%andb_true_iff. by rewrite lowerCodeUnit_digit, IH.
Qed.

Lemma toLowerCase_newName (fileName : string) (index : N) :
  toLowerCase (fileName +:+ "_" +:+ pretty index)
  = toLowerCase fileName +:+ "_" +:+ pretty index.
Proof.
  rewrite !toLowerCase_app. f_equal. f_equal. apply toLowerCase_digits, pretty_digits.
Qed.

Lemma setNew_lookup (existingFileNames : NameTable) (key other : string) :
  other ≠ key → other ≠ "length" →
  setNew existingFileNames key !! other = existingFileNames !! other.
Proof.
  intros Hkey Hlength. unfold setNew.
  destruct (arrayIndex key); [destruct (_ <=? _)%N|];
    by rewrite ?(lookup_insert_ne _ "length"), lookup_insert_ne.
Qed.

Lemma setNew_plain (existingFileNames : NameTable) (key : string) :
  arrayIndex key = None → setNew existingFileNames key = <[key := 1%N]> existingFileNames.
Proof. intros Hkey. unfold setNew. by rewrite Hkey. Qed.

Lemma setNew_key (existingFileNames : NameTable) (key : string) :
  key ≠ "length" → setNew existingFileNames key !! key = Some 1%N.
Proof.
  intros Hkey. unfold setNew.
  destruct (arrayIndex key); [destruct (_ <=? _)%N|];
    by rewrite ?(lookup_insert_ne _ "length"), lookup_insert_eq.
Qed.

(** X11.  [getUniqueFilename] on a candidate that is plain: lower-cased it
    is neither "length" nor the name of a member an array inherits.  The
    call returns.  The name it returns is, lower-cased, not a key of the
    table it was given: it differs, whatever the case of the letters, from
    every candidate entered before.  It is the candidate itself exactly
    when the lower-cased candidate is new to the table, and the candidate
    followed by [_index] otherwise.  The table it leaves has the lower-cased
    candidate as a key and, the length of the array apart, the counters of
    the other keys as before; the length is as before too unless the
    candidate is an array index. *)
Theorem getUniqueFilename_returns_unused_name
    (existingFileNames : NameTable) (fileName : string) :
  plainName fileName = true →
  ∃ name table,
    getUniqueFilename existingFileNames fileName = Ok (name, table)
    ∧ existingFileNames !! toLowerCase name = None
    ∧ (name = fileName ∨ ∃ index, name = fileName +:+ "_" +:+ pretty (index : N))
    ∧ (name = fileName ↔ existingFileNames !! toLowerCase fileName = None)
    ∧ is_Some (table !! toLowerCase fileName)
    ∧ (∀ key, key ≠ toLowerCase fileName → key ≠ "length" →
         table !! key = existingFileNames !! key)
    ∧ (arrayIndex (toLowerCase fileName) = None →
       dom table = {[toLowerCase fileName]} ∪ dom existingFileNames).
Proof.
  intros Hplain%plainName_spec.
  destruct (not_inherited_ne _ Hplain) as [_ Hlength].
  destruct (getUniqueFilename_spec existingFileNames fileName Hplain)
    as (name & table & Hrun & Hnew & Hold).
  exists name, table. split; [done|].
  destruct (existingFileNames !! toLowerCase fileName) as [counter|] eqn:Hlc.
  - destruct (Hold counter eq_refl) as (index & Hle & -> & -> & Hfree).
    split_and!.
    + by rewrite toLowerCase_newName.
    + right. by exists index.
    + split; [|done]. intros Heq. by apply append_ne_self in Heq.
    + rewrite lookup_insert_eq. by eauto.
    + intros key Hkey _. by rewrite lookup_insert_ne.
    + intros _. by rewrite dom_insert_L.
  - destruct (Hnew eq_refl) as [-> ->].
    split_and!; [done|by left|done| | |].
    + rewrite setNew_key by done. by eauto.
    + intros key Hkey Hne. by apply setNew_lookup.
    + intros Hindex. by rewrite setNew_plain, dom_insert_L.
Qed.

Lemma getUniqueFilename_returns_unused_name_witness :
  getUniqueFilename {["a.md" := 1%N]} "A.md" = Ok ("A.md_1", {["a.md" := 2%N]})
  ∧ ∃ name table,
      getUniqueFilename {["a.md" := 1%N]} "A.md" = Ok (name, table)
      ∧ ({["a.md" := 1%N]} : NameTable) !! toLowerCase name = None.
Proof.
  split; [vm_compute; reflexivity|].
  destruct (getUniqueFilename_returns_unused_name {["a.md" := 1%N]} "A.md")
    as (name & table & Hrun & Hunused & _); [vm_compute; reflexivity|].
  by exists name, table.
Defined.

(** X12.  [getUniqueFilename] on a candidate that is, lower-cased, the name
    of a member the table inherits.  For the name of an inherited method
    that the table does not have of its own, the counter read is not a
    number: the name returned is the candidate followed by "_NaN" and the
    table is as before, so the next call with this candidate returns the
    same name again (unless the table has a key that ends in "_NaN", which
    no call enters).  For "__proto__" the counter read is 0 and the write is
    lost: the name returned is the candidate followed by "_0" and the table
    is as before, when "__proto___0" is not a key of the table; when it is,
    the loop goes round on the spot and the call never returns. *)
Theorem getUniqueFilename_on_inherited_names
    (existingFileNames : NameTable) (fileName : string) :
  (toLowerCase fileName ∈ Array_prototype ++ Object_prototype_methods →
   existingFileNames !! toLowerCase fileName = None →
   existingFileNames !! (toLowerCase fileName +:+ "_NaN") = None →
   getUniqueFilename existingFileNames fileName
   = Ok (fileName +:+ "_NaN", existingFileNames))
  ∧ (toLowerCase fileName = "__proto__" →
     getUniqueFilename existingFileNames fileName
     = if bool_decide (is_Some (existingFileNames !! "__proto___0"))
       then Diverge
       else Ok (fileName +:+ "_0", existingFileNames)).
Proof.
  split.
  - intros Hmethod Hown Hnan. unfold getUniqueFilename.
    assert (inArray existingFileNames (toLowerCase fileName) = true) as ->.
    { unfold inArray. apply orb_true_iff. right. apply inherits_spec.
      unfold inheritedByArray, Object_prototype. apply elem_of_cons. right.
      apply elem_of_app in Hmethod as [?|?]; apply elem_of_app; [by left|right].
      by apply elem_of_cons; right. }
    assert (postIncrement existingFileNames (toLowerCase fileName)
            = Ok (NaN, existingFileNames)) as Hstep.
    { unfold postIncrement.
      destruct (String.eqb_spec (toLowerCase fileName) "__proto__") as [Heq|_].
      { rewrite Heq in Hmethod. apply inherits_spec in Hmethod.
        by vm_compute in Hmethod. }
      destruct (String.eqb_spec (toLowerCase fileName) "length") as [Heq|_].
      { rewrite Heq in Hmethod. apply inherits_spec in Hmethod.
        by vm_compute in Hmethod. }
      by rewrite Hown. }
    rewrite (nextFreeIndex_stationary _ _ _ NaN) by done.
    change (toLowerCase fileName +:+ "_" +:+ numberToString NaN)
      with (toLowerCase fileName +:+ "_NaN").
    change (fileName +:+ "_" +:+ numberToString NaN) with (fileName +:+ "_NaN").
    rewrite inArray_own.
    + rewrite bool_decide_eq_false_2; [done|]. rewrite Hnan. by intros [? ?].
    + apply (not_inherited (λ key, endsWith key "_NaN")); [by vm_compute|].
      apply endsWith_app_r, endsWith_refl.
  - intros Hproto. unfold getUniqueFilename. rewrite Hproto.
    assert (inArray existingFileNames "__proto__" = true) as ->.
    { unfold inArray. apply orb_true_iff. right. reflexivity. }
    rewrite (nextFreeIndex_stationary _ _ _ (Num 0)) by done.
    change ("__proto__" +:+ "_" +:+ numberToString (Num 0)) with "__proto___0".
    rewrite inArray_own
      by (apply (not_inherited endsWithDigit); by vm_compute).
    by destruct (bool_decide _).
Qed.

Lemma getUniqueFilename_on_inherited_names_witness :
  getUniqueFilename ∅ "Map" = Ok ("Map_NaN", ∅)
  ∧ getUniqueFilename ∅ "__proto__" = Ok ("__proto___0", ∅)
  ∧ getUniqueFilename {["__proto___0" := 1%N]} "__proto__" = Diverge.
Proof.
  destruct (getUniqueFilename_on_inherited_names ∅ "Map") as [Hmethod _].
  destruct (getUniqueFilename_on_inherited_names ∅ "__proto__") as [_ Hproto].
  destruct (getUniqueFilename_on_inherited_names {["__proto___0" := 1%N]} "__proto__")
    as [_ Hloop].
  split_and!.
  - apply Hmethod; [|reflexivity..]. apply inherits_spec. vm_compute; reflexivity.
  - exact (Hproto eq_refl).
  - exact (Hloop eq_refl).
Defined.

(** ** Calls of getUniqueFilename in a row *)

(** A name splits in one way into a stem, an underscore and digits. *)
Lemma digits_no_underscore (d a b : string) :
  isDigits d = true → d ≠ a +:+ "_" +:+ b.
Proof.
  revert a. induction d as [|c d IH]; intros a Hd Heq.
  - by destruct a.
  - simpl in Hd. apply andb_true_iff in Hd as [Hc Hd].
    destruct a as [|c' a].
    + rewrite append_nil_l, append_cons in Heq. injection Heq as -> _. done.
    + rewrite append_cons in Heq. injection Heq as _ Heq. by eapply IH.
Qed.

Lemma stem_index_inj (s s' d d' : string) :
  isDigits d = true → isDigits d' = true →
  s +:+ "_" +:+ d = s' +:+ "_" +:+ d' → s = s' ∧ d = d'.
Proof.
  intros Hd Hd'. revert s'. induction s as [|c s IH]; intros [|c' s'] Heq.
  - rewrite !append_nil_l in Heq. by injection Heq.
  - rewrite append_nil_l, !append_cons in Heq. injection Heq as _ Heq.
    by apply digits_no_underscore in Heq.
  - rewrite append_nil_l, !append_cons in Heq. injection Heq as _ Heq.
    symmetry in Heq. by apply digits_no_underscore in Heq.
  - rewrite !append_cons in Heq. injection Heq as -> Heq.
    apply IH in Heq as [-> ->]. done.
Qed.

Lemma setNew_keys (existingFileNames : NameTable) (key other : string) :
  is_Some (setNew existingFileNames key !! other) →
  other = key ∨ other = "length" ∨ is_Some (existingFileNames !! other).
Proof.
  destruct (decide (other = key)) as [->|Hkey]; [by left|].
  destruct (decide (other = "length")) as [->|Hlength]; [by auto|].
  rewrite setNew_lookup by done. auto.
Qed.

Lemma setNew_keeps (existingFileNames : NameTable) (key other : string) :
  key ≠ "length" →
  is_Some (existingFileNames !! other) →
  is_Some (setNew existingFileNames key !! other).
Proof.
  intros Hkey Hother.
  destruct (decide (other = key)) as [->|Hne]; [rewrite setNew_key; by eauto|].
  destruct (decide (other = "length")) as [->|Hlength]; [|by rewrite setNew_lookup].
  unfold setNew. destruct (arrayIndex key); [destruct (_ <=? _)%N|].
  - rewrite lookup_insert_eq. by eauto.
  - by rewrite lookup_insert_ne.
  - by rewrite lookup_insert_ne.
Qed.

Lemma getUniqueFilename_step (all : list string) (table : NameTable)
    (issued : list string) (fileName name : string) (table' : NameTable) :
  clashFree all → fileName ∈ all → plainName fileName = true →
  (∀ key, is_Some (table !! key) → key = "length" ∨ ∃ g, g ∈ all ∧ key = toLowerCase g) →
  (∀ x, x ∈ issued → issuedFrom table x) →
  getUniqueFilename table fileName = Ok (name, table') →
  (toLowerCase name ∉ issued)
  ∧ (name = fileName ∨ ∃ index, name = fileName +:+ "_" +:+ pretty (index : N))
  ∧ (∀ key, is_Some (table' !! key) →
       key = "length" ∨ ∃ g, g ∈ all ∧ key = toLowerCase g)
  ∧ (∀ x, x ∈ toLowerCase name :: issued → issuedFrom table' x).
Proof.
  intros Hfree Hin Hplain%plainName_spec Hkeys Hissued Hrun.
  destruct (not_inherited_ne _ Hplain) as [_ Hlength].
  destruct (getUniqueFilename_spec table fileName Hplain)
    as (name0 & table0 & Hrun0 & Hnew & Hold).
  rewrite Hrun in Hrun0. injection Hrun0 as <- <-.
  destruct (table !! toLowerCase fileName) as [counter|] eqn:Hlc.
  - destruct (Hold counter eq_refl) as (index & Hle & -> & -> & Hunused).
    rewrite toLowerCase_newName. split_and!.
    + intros [Hkey|(key & c & i & Hne & Hkey & Hi & Heq)]%Hissued.
      * rewrite Hunused in Hkey. by destruct Hkey.
      * apply stem_index_inj in Heq as [<- Heq]; [|apply pretty_digits..].
        apply (inj pretty) in Heq as <-.
        rewrite Hlc in Hkey. injection Hkey as <-. lia.
    + right. by exists index.
    + intros key [<-|Hkey]%lookup_insert_is_Some'; [by eauto|by apply Hkeys].
    + intros x [->|Hx]%elem_of_cons.
      * right. exists (toLowerCase fileName), (index + 1)%N, index.
        split_and!; [done|apply lookup_insert_eq|lia|done].
      * destruct (Hissued x Hx) as [Hkey|(key & c & i & Hne & Hkey & Hi & ->)].
        { left. apply lookup_insert_is_Some'. by right. }
        right. destruct (decide (key = toLowerCase fileName)) as [->|Hne'].
        { rewrite Hlc in Hkey. injection Hkey as <-.
          exists (toLowerCase fileName), (index + 1)%N, i.
          split_and!; [done|apply lookup_insert_eq|lia|done]. }
        exists key, c, i. split_and!; [done|by rewrite lookup_insert_ne|done..].
  - destruct (Hnew eq_refl) as [-> ->]. split_and!.
    + intros [Hkey|(key & c & i & Hne & Hkey & Hi & Heq)]%Hissued.
      * rewrite Hlc in Hkey. by destruct Hkey.
      * destruct (Hkeys key) as [?|(g & Hg & ->)]; [by eauto|done|].
        exact (Hfree fileName g i Hin Hg Heq).
    + by left.
    + intros key [->|[->|Hkey]]%setNew_keys; [by eauto|by left|by apply Hkeys].
    + intros x [->|Hx]%elem_of_cons.
      * left. rewrite setNew_key by done. by eauto.
      * destruct (Hissued x Hx) as [Hkey|(key & c & i & Hne & Hkey & Hi & ->)].
        { left. by apply setNew_keeps. }
        right. exists key, c, i. split_and!; [done| |done..].
        rewrite setNew_lookup; [done| |done]. intros ->. by rewrite Hlc in Hkey.
Qed.

Lemma getUniqueFilenames_distinct (all : list string) :
  clashFree all →
  ∀ (fileNames : list string) (table : NameTable) (issued : list string),
    fileNames ⊆ all →
    Forall (λ f, plainName f = true) fileNames →
    (∀ key, is_Some (table !! key) →
       key = "length" ∨ ∃ g, g ∈ all ∧ key = toLowerCase g) →
    (∀ x, x ∈ issued → issuedFrom table x) →
    ∃ names table',
      getUniqueFilenames table fileNames = Ok (names, table')
      ∧ Forall2 (λ f name, name = f ∨ ∃ index, name = f +:+ "_" +:+ pretty (index : N))
          fileNames names
      ∧ NoDup (toLowerCase <$> names)
      ∧ ∀ name, name ∈ names → toLowerCase name ∉ issued.
Proof.
  intros Hfree fileNames.
  induction fileNames as [|f fs IH]; intros table issued Hsub Hplain Hkeys Hissued.
  - exists [], table. split_and!; [done|constructor|constructor|].
    intros name Hname. by apply elem_of_nil in Hname.
  - apply Forall_cons in Hplain as [Hf Hfs].
    assert (f ∈ all) as Hin.
    { apply Hsub. by apply list_elem_of_here. }
    assert (fs ⊆ all) as Hsub'.
    { intros g Hg. apply Hsub. by apply list_elem_of_further. }
    destruct (getUniqueFilename_plain table f Hf) as (name & table1 & Hone).
    destruct (getUniqueFilename_step all table issued f name table1)
      as (Hfresh & Hshape & Hkeys1 & Hissued1); [done..|].
    destruct (IH table1 (toLowerCase name :: issued))
      as (names & table2 & Hrest & Hshapes & Hdistinct & Hfreshs); [done..|].
    exists (name :: names), table2. simpl. rewrite Hone. simpl. rewrite Hrest. simpl.
    split_and!; [done|by constructor| |].
    + constructor; [|done].
      intros (n & Heq & Hn)%list_elem_of_fmap.
      apply Hfreshs in Hn. rewrite <-Heq in Hn. apply Hn. by apply list_elem_of_here.
    + intros n [->|Hn]%elem_of_cons; [done|].
      apply Hfreshs in Hn. intros Hi. apply Hn. by apply list_elem_of_further.
Qed.

(** X13.  Names handed out in a row from the empty table differ from one
    another, whatever the case of the letters, when every candidate is plain
    and no candidate is, lower-cased, another candidate followed by an
    underscore and an index.  Each name is its candidate or its candidate
    followed by [_index]. *)
Theorem clash_free_candidates_get_distinct_names (fileNames : list string) :
  Forall (λ f, plainName f = true) fileNames →
  clashFree fileNames →
  ∃ names table,
    getUniqueFilenames ∅ fileNames = Ok (names, table)
    ∧ Forall2 (λ f name, name = f ∨ ∃ index, name = f +:+ "_" +:+ pretty (index : N))
        fileNames names
    ∧ NoDup (toLowerCase <$> names).
Proof.
  intros Hplain Hfree.
  destruct (getUniqueFilenames_distinct fileNames Hfree fileNames ∅ [])
    as (names & table & Hrun & Hshape & Hdistinct & _).
  - done.
  - done.
  - intros key [x Hx]. by rewrite lookup_empty in Hx.
  - intros x Hx. by apply elem_of_nil in Hx.
  - by exists names, table.
Qed.

Lemma clash_free_candidates_get_distinct_names_witness :
  getUniqueFilenames ∅ ["A.md"; "a.md"; "b.md"; "a.md"]
  = Ok (["A.md"; "a.md_1"; "b.md"; "a.md_2"], {["a.md" := 3%N; "b.md" := 1%N]})
  ∧ ∃ names table,
      getUniqueFilenames ∅ ["A.md"; "a.md"; "b.md"; "a.md"] = Ok (names, table)
      ∧ NoDup (toLowerCase <$> names).
Proof.
  split; [vm_compute; reflexivity|].
  destruct (clash_free_candidates_get_distinct_names ["A.md"; "a.md"; "b.md"; "a.md"])
    as (names & table & Hrun & _ & Hdistinct).
  - repeat constructor.
  - intros f g index Hf Hg Heq.
    assert (toLowerCase f = "a.md" ∨ toLowerCase f = "b.md") as Hlf.
    { set_unfold. destruct Hf as [->|[->|[->|[->|[]]]]]; auto. }
    assert (toLowerCase g = "a.md" ∨ toLowerCase g = "b.md") as Hlg.
    { set_unfold. destruct Hg as [->|[->|[->|[->|[]]]]]; auto. }
    destruct Hlf as [Hlf|Hlf], Hlg as [Hlg|Hlg]; rewrite Hlf, Hlg in Heq;
      rewrite !append_cons in Heq; discriminate Heq.
  - by exists names, table.
Defined.

(** ** The similar-notes widget *)

Lemma renderItems_sublist `{SimilarNotesWidget.Services World}
    (similarNotes : list SimilarNotesWidget.SimilarNote) :
  ∀ (items : list SimilarNotesWidget.Html) (world : World),
    ∃ shown,
      sublist shown similarNotes
      ∧ (SimilarNotesWidget.renderItems similarNotes items world).1
        = items ++ (SimilarNotesWidget.itemOf <$> shown)
      ∧ ((∀ noteId w, (SimilarNotesWidget.treeCache_getNote noteId w).1 = true) →
         shown = similarNotes)
      ∧ ((∀ noteId w, (SimilarNotesWidget.treeCache_getNote noteId w).1 = false) →
         shown = []).
Proof.
  induction similarNotes as [|similarNote similarNotes IH]; intros items world.
  - exists []. simpl. by rewrite app_nil_r.
  - simpl.
    destruct (SimilarNotesWidget.treeCache_getNote
                (SimilarNotesWidget.noteId similarNote) world) as [note world1] eqn:Hnote.
    destruct note.
    + destruct (IH (items ++ [SimilarNotesWidget.itemOf similarNote])
                  (SimilarNotesWidget.linkService_createNoteLinkWithPath
                     (SimilarNotesWidget.join "/" (SimilarNotesWidget.notePath similarNote))
                     world1))
        as (shown & Hsub & Hitems & Hall & Hnone).
      exists (similarNote :: shown). split; [by apply sublist_skip|].
      split; [|split].
      * unfold SimilarNotesWidget.itemOf in Hitems at 1. rewrite Hitems.
        by rewrite <-(assoc_L (++)).
      * intros Hfound. by rewrite (Hall Hfound).
      * intros Hmissing. specialize (Hmissing (SimilarNotesWidget.noteId similarNote) world).
        by rewrite Hnote in Hmissing.
    + destruct (IH items world1) as (shown & Hsub & Hitems & Hall & Hnone).
      exists shown. split; [by apply sublist_cons|]. split; [done|]. split; [|done].
      intros Hfound. specialize (Hfound (SimilarNotesWidget.noteId similarNote) world).
      by rewrite Hnote in Hfound.
Qed.

(** X14.  The body of the similar-notes widget.  When the server gives no
    similar note the body is the text "No similar notes found ..." and
    neither the tree cache nor the link service is called.  Otherwise the
    body is a list, never that text: its items are the links to the paths,
    joined with "/", of some of the similar notes, in the order of the
    server, one for each note the tree cache gives; all of them when the
    cache gives every note, and none, an empty list, when it gives no note. *)
Theorem similar_notes_body_is_the_message_or_a_list
    `{SimilarNotesWidget.Services World} (ctxNoteId : string) (world : World)
    (similarNotes : list SimilarNotesWidget.SimilarNote) (world1 : World) :
  SimilarNotesWidget.server_get ("similar_notes/" +:+ ctxNoteId) world
    = (similarNotes, world1) →
  match similarNotes with
  | [] =>
      SimilarNotesWidget.doRenderBody ctxNoteId world
      = (SimilarNotesWidget.Text "No similar notes found ...", world1)
  | _ :: _ =>
      ∃ shown,
        (SimilarNotesWidget.doRenderBody ctxNoteId world).1
          = SimilarNotesWidget.Ul (SimilarNotesWidget.itemOf <$> shown)
        ∧ sublist shown similarNotes
        ∧ ((∀ noteId w, (SimilarNotesWidget.treeCache_getNote noteId w).1 = true) →
           shown = similarNotes)
        ∧ ((∀ noteId w, (SimilarNotesWidget.treeCache_getNote noteId w).1 = false) →
           shown = [])
  end.
Proof.
  intros Hget. unfold SimilarNotesWidget.doRenderBody. rewrite Hget.
  destruct similarNotes as [|similarNote similarNotes]; [done|].
  destruct (renderItems_sublist (similarNote :: similarNotes) []
              (SimilarNotesWidget.treeCache_getNotes
                 (flat_map SimilarNotesWidget.notePath (similarNote :: similarNotes))
                 world1))
    as (shown & Hsub & Hitems & Hall & Hnone).
  exists shown.
  destruct (SimilarNotesWidget.renderItems _ _ _) as [items world3].
  simpl in *. by subst.
Qed.

Lemma similar_notes_body_is_the_message_or_a_list_witness :
  SimilarNotesWidget.doRenderBody (H := SimilarNotesWidget.sampleServices) "n9" ∅
    = (SimilarNotesWidget.Text "No similar notes found ...", ∅)
  ∧ (SimilarNotesWidget.doRenderBody (H := SimilarNotesWidget.sampleServices) "n0" ∅).1
    = SimilarNotesWidget.Ul
        [SimilarNotesWidget.Li (SimilarNotesWidget.NoteLinkWithPath "root/n1/n2")].
Proof.
  split.
  - exact (similar_notes_body_is_the_message_or_a_list
             (H := SimilarNotesWidget.sampleServices) "n9" ∅ [] ∅ eq_refl).
  - vm_compute; reflexivity.
Defined.

(** ** The walk returns when the names are plain *)

(** X15.  With more fuel than the repository has notes, [getNote] returns a
    result, whatever the branches are, cycles included, when the root
    branch and every child branch lead to a note of the repository and no
    candidate for a name is, lower-cased, "length" or the name of a member
    an array inherits; and more fuel gives the same result. *)
Theorem getNote_returns_for_plain_names `{Libraries}
    (repository : Repository) (format : string) (fuel : nat) (branch : Branch) :
  size repository < fuel →
  plainRepository repository format branch = true →
  ∃ result table reg,
    getNote repository format fuel branch ∅ ∅ = Ok (result, table, reg)
    ∧ ∀ extra,
        getNote repository format (fuel + extra) branch ∅ ∅ = Ok (result, table, reg).
Proof.
  intros Hfuel [Hroot Hchildren]%plainRepository_spec.
  assert (size (dom repository ∖ dom (∅ : Registry)) < fuel) as Hsize.
  { rewrite dom_empty_L, difference_empty_L, size_dom. done. }
  pose proof (getNote_runs repository format fuel Hchildren branch ∅ ∅ Hsize Hroot)
    as Hsucc.
  destruct (getNote repository format fuel branch ∅ ∅)
    as [[[result table] reg]| |] eqn:Hbuild; [|done..].
  exists result, table, reg. split; [done|].
  intros extra. rewrite getNote_fuel_add; [done|]. by rewrite Hbuild.
Qed.

Lemma getNote_returns_for_plain_names_witness :
  ∃ result table reg,
    getNote (H := sampleLibraries) cyclicRepository "html" 3 (branchTo "a") ∅ ∅
      = Ok (result, table, reg)
    ∧ ∀ extra,
        getNote (H := sampleLibraries) cyclicRepository "html" (3 + extra)
          (branchTo "a") ∅ ∅
        = Ok (result, table, reg).
Proof.
  apply (getNote_returns_for_plain_names (H := sampleLibraries)
           cyclicRepository "html" 3 (branchTo "a")).
  - vm_compute. lia.
  - vm_compute; reflexivity.
Defined.
